(** * The agent training loop and the critic updaters

    A shallow embedding of
      - [anvil/agents/base_agent.py]   ([BaseAgent]: [load], [_write_log],
        [step_env], [fit]), and
      - [anvilrl/updaters/critics.py]  ([BaseCriticUpdater] and the three
        regression updaters),
    followed by the properties of the training loop and of the updaters.

    Python floats are idealised as exact rationals ([Q]); Python integers are
    [Z].  Mutable objects are threaded through small state monads; calls to
    the collaborators the code only uses through an interface (environment,
    model, explorer, the tensor backend) are recorded in a trace. *)

From Stdlib Require Import String ZArith QArith Qabs Lia Lqa Bool List.
Import ListNotations.

Set Implicit Arguments.

(** ** Python exceptions and results *)

Inductive exn : Type :=
| FileNotFoundError
| ZeroDivisionError
| ValueError (msg : string)
| RuntimeError (msg : string).

Inductive result (A : Type) : Type :=
| Ok (a : A)
| Raise (e : exn).
Arguments Ok {A} a.
Arguments Raise {A} e.

(** [range(n)]: the integers [0 .. n-1]; empty when [n <= 0]. *)
Definition range (n : Z) : list Z := map Z.of_nat (seq 0 (Z.to_nat n)).

(** [a // b] on Python integers. *)
Definition floordiv (a b : Z) : result Z :=
  if (b =? 0)%Z then Raise ZeroDivisionError else Ok (a / b)%Z.

(** A float as numpy returns it: [nan], or a number. *)
Inductive npfloat : Type :=
| nan
| fin (q : Q).

Definition Qsum (l : list Q) : Q := fold_right Qplus 0%Q l.

(** [np.mean] of a one-dimensional array: [nan] on an empty array. *)
Definition np_mean (l : list Q) : npfloat :=
  match l with
  | [] => nan
  | _ :: _ => fin (Qsum l / inject_Z (Z.of_nat (length l)))
  end.

(** * base_agent.py *)

Module Agent.

(** The collaborators of the agent, used through their interfaces only.
    Every one of them is an object with a state of its own. *)
Class Collaborators : Type := {
  Obs : Type;            (* an observation (np.ndarray) *)
  Act : Type;            (* what the model or the explorer returns *)
  NpAct : Type;          (* an action as stored in the buffer *)
  StepInfo : Type;       (* fourth component of what [env.step] returns *)
  EnvState : Type;
  ModelState : Type;
  ExplorerState : Type;
  StateDict : Type;
  (* [env.reset()] *)
  env_reset : EnvState -> Obs * EnvState;
  (* [env.step]: the argument is [None] when the call passes none *)
  env_step : option Act -> EnvState -> (Q * Obs * bool * StepInfo) * EnvState;
  (* [model(observation)] *)
  model_call : Obs -> ModelState -> Act * ModelState;
  (* [action_explorer(observation)] *)
  explorer_call : Obs -> ExplorerState -> Act * ExplorerState;
  torch_to_numpy : Act -> NpAct;
  (* [model.load_state_dict(d)] *)
  load_state_dict : StateDict -> ModelState -> result ModelState
}.

Section WithCollaborators.
Context {C : Collaborators}.

Record Transition : Type := {
  observation : Obs;
  action : NpAct;
  reward : Q;
  next_observation : Obs;
  done : bool
}.

(** [Log], as [fit] and [_write_log] use it. *)
Record Log : Type := {
  log_reward : npfloat;
  actor_loss : option Q;
  critic_loss : option Q;
  kl_divergence : option Q;
  entropy : option Q
}.

Definition set_reward (r : npfloat) (log : Log) : Log :=
  {| log_reward := r;
     actor_loss := actor_loss log;
     critic_loss := critic_loss log;
     kl_divergence := kl_divergence log;
     entropy := entropy log |}.

(** Modelled from the spec: the experience buffer ([anvil/buffers]), of which
    the sources hold only the calls.  A store of fixed capacity, oldest entry
    first; [add] appends and, when the store is full, overwrites the oldest
    entry; [last n] is the [n] most recent entries; a rollout buffer is the
    on-policy kind. *)
Record Buffer : Type := {
  is_rollout : bool;        (* isinstance(buffer, RolloutBuffer) *)
  capacity : Z;
  entries : list Transition
}.

Definition add_trajectory (t : Transition) (b : Buffer) : Buffer :=
  let l := entries b ++ [t] in
  {| is_rollout := is_rollout b;
     capacity := capacity b;
     entries := skipn (length l - Z.to_nat (capacity b)) l |}.

Definition lastn (A : Type) (n : nat) (l : list A) : list A :=
  skipn (length l - n) l.

(** [buffer.last(batch_size)]: the batch of the most recent entries. *)
Definition last (batch_size : Z) (b : Buffer) : list Transition :=
  lastn (Z.to_nat batch_size) (entries b).

(** [batch.rewards] *)
Definition rewards (batch : list Transition) : list Q := map reward batch.

(** The agent object. [action_explorer] is the attribute [step_env] reads; it
    is assigned by the concrete agent ([None] when there is no explorer). *)
Record Agent : Type := {
  env : EnvState;
  model : ModelState;
  action_explorer : option ExplorerState;
  buffer : Buffer;
  buffer_size : Z;
  verbose : bool
}.

Definition set_env (e : EnvState) (a : Agent) : Agent :=
  {| env := e; model := model a; action_explorer := action_explorer a;
     buffer := buffer a; buffer_size := buffer_size a; verbose := verbose a |}.
Definition set_model (m : ModelState) (a : Agent) : Agent :=
  {| env := env a; model := m; action_explorer := action_explorer a;
     buffer := buffer a; buffer_size := buffer_size a; verbose := verbose a |}.
Definition set_explorer (x : ExplorerState) (a : Agent) : Agent :=
  {| env := env a; model := model a; action_explorer := Some x;
     buffer := buffer a; buffer_size := buffer_size a; verbose := verbose a |}.
Definition set_buffer (b : Buffer) (a : Agent) : Agent :=
  {| env := env a; model := model a; action_explorer := action_explorer a;
     buffer := b; buffer_size := buffer_size a; verbose := verbose a |}.

(** What the logger receives. *)
Inductive LogMsg : Type :=
| Text (s : string)
| StepLog (step : Z) (log : Log).       (* f"{step}: {log}" *)

(** The calls the agent makes on its collaborators, in order. *)
Inductive Event : Type :=
| EnvReset
| EnvStep (arg : option Act)
| ModelCall (o : Obs)
| ExplorerCall (o : Obs)
| BufferAdd (t : Transition)
| Fit (batch_size actor_epochs critic_epochs : Z)
| AddScalar (tag : string) (value : option npfloat) (step : Z)
| LoggerInfo (msg : LogMsg).

(** The agent's methods: a state monad over the agent object that also
    collects the trace of events. *)
Definition M (A : Type) : Type := Agent -> A * Agent * list Event.

Definition ret (A : Type) (a : A) : M A := fun s => (a, s, []).

Definition bind (A B : Type) (m : M A) (f : A -> M B) : M B :=
  fun s =>
    let '(a, s1, t1) := m s in
    let '(b, s2, t2) := f a s1 in
    (b, s2, t1 ++ t2).

Definition emit (e : Event) : M unit := fun s => (tt, s, [e]).
Definition get_self : M Agent := fun s => (s, s, []).
Definition put_self (s : Agent) : M unit := fun _ => (tt, s, []).

End WithCollaborators.

Declare Scope agent_scope.
Delimit Scope agent_scope with agent.
Notation "x <- m ;; k" := (bind m (fun x => k))
  (at level 61, m at next level, right associativity) : agent_scope.
Notation "' p <- m ;; k" := (bind m (fun x => match x with p => k end))
  (at level 61, p pattern, m at next level, right associativity) : agent_scope.
Notation "m ;; k" := (bind m (fun _ => k))
  (at level 61, right associativity) : agent_scope.

Section Methods.
Context {C : Collaborators}.
Local Open Scope agent_scope.

(** [for x in xs: acc = body(x, acc)] *)
Fixpoint for_each (A : Type) (xs : list Z) (body : Z -> A -> M A) (acc : A) : M A :=
  match xs with
  | [] => ret acc
  | x :: xs' => acc' <- body x acc ;; for_each xs' body acc'
  end.

(** *** Calls on the collaborators *)

Definition call_env_reset : M Obs :=
  self <- get_self ;;
  let '(o, e) := env_reset (env self) in
  put_self (set_env e self) ;;
  emit EnvReset ;;
  ret o.

Definition call_env_step (arg : option Act) : M (Q * Obs * bool * StepInfo) :=
  self <- get_self ;;
  let '(r, e) := env_step arg (env self) in
  put_self (set_env e self) ;;
  emit (EnvStep arg) ;;
  ret r.

Definition call_model (o : Obs) : M Act :=
  self <- get_self ;;
  let '(a, m) := model_call o (model self) in
  put_self (set_model m self) ;;
  emit (ModelCall o) ;;
  ret a.

Definition call_explorer (x : ExplorerState) (o : Obs) : M Act :=
  self <- get_self ;;
  let '(a, x') := explorer_call o x in
  put_self (set_explorer x' self) ;;
  emit (ExplorerCall o) ;;
  ret a.

Definition call_add_trajectory (o : Obs) (a : NpAct) (r : Q) (o' : Obs) (d : bool)
  : M unit :=
  let t := {| observation := o; action := a; reward := r;
              next_observation := o'; done := d |} in
  self <- get_self ;;
  put_self (set_buffer (add_trajectory t (buffer self)) self) ;;
  emit (BufferAdd t).

(** *** [BaseAgent.step_env] *)

Definition step_env_body (observation : Obs) : M Obs :=
  self <- get_self ;;
  action <- match action_explorer self with
            | Some x => call_explorer x observation
            | None => call_model observation
            end ;;
  ' (reward, next_observation, done, _) <- call_env_step None ;;
  call_add_trajectory observation (torch_to_numpy action) reward
                      next_observation done ;;
  if (done : bool) then call_env_reset else ret next_observation.

Definition step_env (observation : Obs) (num_steps : Z) : M Obs :=
  for_each (range num_steps) (fun _ obs => step_env_body obs) observation.

(** *** [BaseAgent._write_log] *)

Definition _write_log (log : Log) (step : Z) : M unit :=
  emit (AddScalar "reward" (Some (log_reward log)) step) ;;
  emit (AddScalar "actor_loss" (option_map fin (actor_loss log)) step) ;;
  emit (AddScalar "critic_loss" (option_map fin (critic_loss log)) step) ;;
  match kl_divergence log with
  | Some v => emit (AddScalar "kl_divergence" (Some (fin v)) step)
  | None => ret tt
  end ;;
  match entropy log with
  | Some v => emit (AddScalar "entropy" (Some (fin v)) step)
  | None => ret tt
  end ;;
  emit (LoggerInfo (StepLog step log)).

(** *** [BaseAgent.fit]

    [_fit] is the abstract method of the concrete agent: it may change the
    agent (buffer and model included) and returns a [Log]. *)
Section Fit.
Variable _fit : Z -> Z -> Z -> Agent -> Log * Agent.

Definition call__fit (batch_size actor_epochs critic_epochs : Z) : M Log :=
  self <- get_self ;;
  let '(log, self') := _fit batch_size actor_epochs critic_epochs self in
  put_self self' ;;
  emit (Fit batch_size actor_epochs critic_epochs) ;;
  ret log.

Definition fit_iteration (batch_size actor_epochs critic_epochs : Z)
  (step : Z) (observation : Obs) : M Obs :=
  self <- get_self ;;
  observation <-
    (if (step =? 0)%Z then
       step_env observation batch_size
     else if is_rollout (buffer self) then
       step_env observation (buffer_size self)
     else
       step_env observation 1) ;;
  log <- call__fit batch_size actor_epochs critic_epochs ;;
  self <- get_self ;;
  let log := set_reward (np_mean (rewards (last batch_size (buffer self)))) log in
  _write_log log step ;;
  ret observation.

Definition fit (num_steps batch_size actor_epochs critic_epochs : Z)
  (self : Agent) : result (Agent * list Event) :=
  match (if is_rollout (buffer self)
         then floordiv num_steps (buffer_size self)
         else Ok num_steps) with
  | Raise e => Raise e
  | Ok num_steps =>
      let '(_, self', trace) :=
        (observation <- call_env_reset ;;
         for_each (range num_steps)
           (fit_iteration batch_size actor_epochs critic_epochs) observation)
          self in
      Ok (self', trace)
  end.

End Fit.

(** *** [BaseAgent.load]

    The file system maps a path to what [T.load] finds there. *)
Inductive FsEntry : Type :=
| Checkpoint (d : StateDict)
| OtherFile.

Definition FileSystem : Type := string -> option FsEntry.

(** [T.load(path)] *)
Definition T_load (fs : FileSystem) (path : string) : result StateDict :=
  match fs path with
  | None => Raise FileNotFoundError
  | Some (Checkpoint d) => Ok d
  | Some OtherFile => Raise (RuntimeError "not a checkpoint")
  end.

Definition load (fs : FileSystem) (path : string) (self : Agent)
  : result (Agent * list Event) :=
  let path := (path ++ ".pt")%string in
  let t1 := if verbose self
            then [LoggerInfo (Text (("Loading weights from " ++ path)%string))]
            else [] in
  match (match T_load fs path with
         | Ok d => load_state_dict d (model self)
         | Raise e => Raise e
         end) with
  | Ok m => Ok (set_model m self, t1)
  | Raise FileNotFoundError =>
      Ok (self,
          t1 ++ if verbose self
                then [LoggerInfo
                        (Text "File not found, assuming no model dict was to be loaded")]
                else [])
  | Raise e => Raise e
  end.

End Methods.

End Agent.

(** * critics.py *)

Module Critics.

(** ** The tensor backend

    A parameter is identified by a number and holds one weight and one
    accumulated gradient.  A tensor carries its values and, for automatic
    differentiation, the derivative of every value with respect to every
    parameter; a loss is a scalar with its derivatives. *)

Definition Param : Type := nat.
Definition Matrix : Type := list (list Q).

Record Tensor : Type := {
  values : Matrix;
  dvalues : Param -> Matrix
}.

Record Scalar : Type := {
  item : Q;                       (* loss.detach().item() *)
  ditem : Param -> Q
}.

(** [c * loss] *)
Definition scale (c : Q) (l : Scalar) : Scalar :=
  {| item := c * item l; ditem := fun p => c * ditem l p |}.

(** A loss module, called on the model's output and the target. *)
Definition LossModule : Type := Tensor -> Matrix -> Scalar.

(** An optimizer class: the state a new optimizer starts from, and the update
    one [step()] makes from the learning rate, the optimizer's state and the
    (weight, gradient) pairs of its parameters. *)
Definition OptState : Type := list Q.

Record OptimizerClass : Type := {
  init_state : OptState;
  update : Q -> OptState -> list (Q * Q) -> list Q * OptState
}.

Record Optimizer : Type := {
  o_class : OptimizerClass;
  o_params : list Param;
  o_lr : Q;
  o_state : OptState
}.

(** The models an updater is called on: [Union[Critic, ActorCritic]].
    A forward pass reads the current weights and its positional arguments. *)
Record Critic : Type := {
  c_parameters : list Param;
  c_forward : (Param -> Q) -> list Matrix -> Tensor
}.

Record ActorCritic : Type := {
  actor_parameters : list Param;
  critics : list Critic;
  forward_critics : (Param -> Q) -> list Matrix -> Tensor
}.

Inductive Model : Type :=
| IsCritic (c : Critic)
| IsActorCritic (ac : ActorCritic).

(** What the code takes from the torch library and from [common.utils]
    without defining it. *)
Class TorchLib : Type := {
  Adam : OptimizerClass;
  MSELoss : LossModule;
  (* the norm [clip_grad_norm_] takes of the given gradients
     ([norm_type=2.0]) *)
  norm : list Q -> Q;
  to_torch : Matrix -> Matrix
}.

(** The updater objects. The three regression classes declare the same
    attributes: those of the base class, [loss_class] and [loss_coeff]. *)
Record BaseCriticUpdater : Type := {
  optimizer_class : OptimizerClass;
  lr : Q;
  max_grad : Q
}.

Record Regression : Type := {
  base : BaseCriticUpdater;
  loss_class : LossModule;
  loss_coeff : Q
}.

Record UpdaterLog : Type := { loss : Q }.

(** [Iterator[Parameter]]: a list, or a generator (a one-shot iterator, as
    [Module.parameters()] returns). *)
Inductive Iterable : Type :=
| FromList (l : list Param)
| FromGenerator (g : nat).

(** The calls made on the backend, in order. *)
Inductive Call : Type :=
| NewOptimizer (o : nat) (cls : OptimizerClass) (params : list Param) (lr : Q)
| ZeroGrad (o : nat)
| Backward (loss : Scalar)
| ClipGradNorm (params : list Param) (max_norm : Q)
| Step (o : nat).

(** The mutable world of one updater: the updater object itself ([self]),
    the weights and gradients of the parameters, what each generator has
    still to yield, the optimizer objects constructed so far, and the trace
    of backend calls. *)
Record State : Type := {
  self : Regression;
  weight : Param -> Q;
  grad : Param -> Q;
  generators : list (list Param);
  optimizers : list Optimizer;
  calls : list Call
}.

Definition set_weight (w : Param -> Q) (s : State) : State :=
  {| self := self s; weight := w; grad := grad s; generators := generators s;
     optimizers := optimizers s; calls := calls s |}.
Definition set_grad (g : Param -> Q) (s : State) : State :=
  {| self := self s; weight := weight s; grad := g; generators := generators s;
     optimizers := optimizers s; calls := calls s |}.
Definition set_generators (gs : list (list Param)) (s : State) : State :=
  {| self := self s; weight := weight s; grad := grad s; generators := gs;
     optimizers := optimizers s; calls := calls s |}.
Definition set_optimizers (os : list Optimizer) (s : State) : State :=
  {| self := self s; weight := weight s; grad := grad s;
     generators := generators s; optimizers := os; calls := calls s |}.
Definition add_call (c : Call) (s : State) : State :=
  {| self := self s; weight := weight s; grad := grad s;
     generators := generators s; optimizers := optimizers s;
     calls := calls s ++ [c] |}.

(** State and exceptions: what was done before a [raise] stays done. *)
Definition M (A : Type) : Type := State -> result A * State.

Definition ret (A : Type) (a : A) : M A := fun s => (Ok a, s).

Definition bind (A B : Type) (m : M A) (f : A -> M B) : M B :=
  fun s =>
    match m s with
    | (Ok a, s') => f a s'
    | (Raise e, s') => (Raise e, s')
    end.

Definition raise (A : Type) (e : exn) : M A := fun s => (Raise e, s).
Arguments raise {A} e.
Definition get : M State := fun s => (Ok s, s).
Definition modify (f : State -> State) : M unit := fun s => (Ok tt, f s).
Definition lift (A : Type) (r : result A) : M A := fun s => (r, s).

Declare Scope torch_scope.
Delimit Scope torch_scope with torch.
Notation "x <- m ;; k" := (bind m (fun x => k))
  (at level 61, m at next level, right associativity) : torch_scope.
Notation "m ;; k" := (bind m (fun _ => k))
  (at level 61, right associativity) : torch_scope.
Local Open Scope torch_scope.

Definition mem (p : Param) (ps : list Param) : bool := existsb (Nat.eqb p) ps.

Fixpoint replace_nth (A : Type) (n : nat) (x : A) (l : list A) : list A :=
  match l, n with
  | [], _ => []
  | _ :: l', O => x :: l'
  | y :: l', S n' => y :: replace_nth n' x l'
  end.

(** The value assigned to [p] by the first pair for [p], else [f p]. *)
Fixpoint assign (kvs : list (Param * Q)) (f : Param -> Q) (p : Param) : Q :=
  match kvs with
  | [] => f p
  | (k, v) :: kvs' => if Nat.eqb k p then v else assign kvs' f p
  end.

(** [critic.parameters()]: a new generator over the critic's parameters. *)
Definition parameters (c : Critic) : M Iterable :=
  s <- get ;;
  modify (set_generators (generators s ++ [c_parameters c])) ;;
  ret (FromGenerator (length (generators s))).

(** The items an iterable yields when it is iterated over in state [s], and
    the state afterwards: a generator is empty once iterated over. *)
Definition yields (it : Iterable) (s : State) : list Param :=
  match it with
  | FromList l => l
  | FromGenerator g => nth g (generators s) []
  end.

Definition consume (it : Iterable) (s : State) : State :=
  match it with
  | FromList _ => s
  | FromGenerator g => set_generators (replace_nth g [] (generators s)) s
  end.

(** [list(it)] *)
Definition list_of (it : Iterable) : M (list Param) :=
  s <- get ;;
  modify (consume it) ;;
  ret (yields it s).

(** [x > y] on floats *)
Definition Qgt_bool (x y : Q) : bool := negb (Qle_bool x y).

(** [x < y] on floats *)
Definition Qlt_bool (x y : Q) : bool := Qgt_bool y x.

(** [cls(params, lr=lr)]: the constructors of torch's optimizer classes
    raise [ValueError] on a negative learning rate; [Optimizer.__init__]
    then iterates over [params] once ([list(params)]) and raises
    [ValueError] when they are none; the new optimizer starts from the
    initial state of its class. *)
Definition fresh_optimizer (cls : OptimizerClass) (ps : list Param) (lr : Q)
  : Optimizer :=
  {| o_class := cls; o_params := ps; o_lr := lr; o_state := init_state cls |}.

Definition new_optimizer (cls : OptimizerClass) (params : Iterable) (lr : Q)
  : M nat :=
  if Qlt_bool lr 0 then raise (ValueError "Invalid learning rate") else
  ps <- list_of params ;;
  match ps with
  | [] => raise (ValueError "optimizer got an empty parameter list")
  | _ :: _ =>
      s <- get ;;
      let o := length (optimizers s) in
      modify (set_optimizers (optimizers s ++ [fresh_optimizer cls ps lr])) ;;
      modify (add_call (NewOptimizer o cls ps lr)) ;;
      ret o
  end.

Definition get_optimizer (o : nat) : M Optimizer :=
  s <- get ;;
  match nth_error (optimizers s) o with
  | Some opt => ret opt
  | None => raise (RuntimeError "no such optimizer")
  end.

(** The gradients after [zero_grad] on parameters [ps], after [backward] of
    a loss, and after clipping those of [ps] to [max_norm]. *)
Definition zeroed (ps : list Param) (g : Param -> Q) : Param -> Q :=
  fun p => if mem p ps then 0 else g p.

Definition accumulated (l : Scalar) (g : Param -> Q) : Param -> Q :=
  fun p => g p + ditem l p.

(** The factor of [clip_grad_norm_]:
    [clip_coef = max_norm / (total_norm + 1e-6)], used when it is below 1. *)
Definition clip_coef {L : TorchLib} (max_norm : Q) (gs : list Q) : Q :=
  let total_norm := norm gs in
  let clip_coef := max_norm / (total_norm + (1 # 1000000)) in
  if Qlt_bool clip_coef 1 then clip_coef else 1.

Definition clipped {L : TorchLib} (ps : list Param) (max_norm : Q)
  (g : Param -> Q) : Param -> Q :=
  fun p => if mem p ps then clip_coef max_norm (map g ps) * g p else g p.

(** [optimizer.zero_grad()]: resets the gradients of the optimizer's own
    parameters. *)
Definition zero_grad (o : nat) : M unit :=
  opt <- get_optimizer o ;;
  s <- get ;;
  modify (set_grad (zeroed (o_params opt) (grad s))) ;;
  modify (add_call (ZeroGrad o)).

(** [loss.backward()]: adds the loss's derivatives to the gradients. *)
Definition backward (l : Scalar) : M unit :=
  s <- get ;;
  modify (set_grad (accumulated l (grad s))) ;;
  modify (add_call (Backward l)).

(** [T.nn.utils.clip_grad_norm_(parameters, max_norm)]: iterates over
    [parameters] once and rescales their gradients by one factor. *)
Definition clip_grad_norm_ {L : TorchLib} (params : Iterable) (max_norm : Q)
  : M unit :=
  ps <- list_of params ;;
  s <- get ;;
  modify (set_grad (clipped ps max_norm (grad s))) ;;
  modify (add_call (ClipGradNorm ps max_norm)).

(** The optimizer after one [step()] on the weights [w] and gradients [g],
    and the weights after it. *)
Definition stepped (opt : Optimizer) (w g : Param -> Q) : Optimizer :=
  {| o_class := o_class opt; o_params := o_params opt; o_lr := o_lr opt;
     o_state :=
       snd (update (o_class opt) (o_lr opt) (o_state opt)
                   (map (fun p => (w p, g p)) (o_params opt))) |}.

Definition step_weights (opt : Optimizer) (w g : Param -> Q) : Param -> Q :=
  assign (combine (o_params opt)
            (fst (update (o_class opt) (o_lr opt) (o_state opt)
                         (map (fun p => (w p, g p)) (o_params opt)))))
         w.

(** [optimizer.step()] *)
Definition step (o : nat) : M unit :=
  opt <- get_optimizer o ;;
  s <- get ;;
  modify (set_weight (step_weights opt (weight s) (grad s))) ;;
  modify (set_optimizers
            (replace_nth o (stepped opt (weight s) (grad s)) (optimizers s))) ;;
  modify (add_call (Step o)).

(** [t.long()]: truncation toward zero. *)
Definition Qtrunc (q : Q) : Z := Z.quot (Qnum q) (Zpos (Qden q)).
Definition long (m : Matrix) : list (list Z) := map (map Qtrunc) m.

Fixpoint gather_row (row : list Q) (idx : list Z) : result (list Q) :=
  match idx with
  | [] => Ok []
  | k :: idx' =>
      if ((0 <=? k) && (k <? Z.of_nat (length row)))%Z then
        match gather_row row idx' with
        | Ok r => Ok (nth (Z.to_nat k) row 0 :: r)
        | Raise e => Raise e
        end
      else Raise (RuntimeError "index out of range")
  end.

(** Gathering along the last dimension of a matrix:
    [out[i][j] = input[i][index[i][j]]]; the index may have no more rows than
    the input. *)
Fixpoint gather_rows (input : Matrix) (index : list (list Z)) {struct index}
  : result Matrix :=
  match index, input with
  | [], _ => Ok []
  | _ :: _, [] => Raise (RuntimeError "index has more rows than input")
  | idx :: index', row :: input' =>
      match gather_row row idx with
      | Ok r =>
          match gather_rows input' index' with
          | Ok rs => Ok (r :: rs)
          | Raise e => Raise e
          end
      | Raise e => Raise e
      end
  end.

Definition or_empty (r : result Matrix) : Matrix :=
  match r with
  | Ok m => m
  | Raise _ => []
  end.

(** [T.gather(input, dim=-1, index=index)] on a two-dimensional tensor. *)
Definition T_gather (input : Tensor) (index : list (list Z)) : M Tensor :=
  v <- lift (gather_rows (values input) index) ;;
  ret {| values := v;
         dvalues := fun p => or_empty (gather_rows (dvalues input p) index) |}.

Definition default (A : Type) (d : A) (o : option A) : A :=
  match o with
  | Some a => a
  | None => d
  end.

(** [self.attribute] *)
Definition attr (A : Type) (f : Regression -> A) : M A :=
  s <- get ;; ret (f (self s)).

(** ** [BaseCriticUpdater] *)

Module BaseCriticUpdater.
Section Methods.
Context {L : TorchLib}.

(** Defaults: [optimizer_class=Adam], [lr=1e-3], [max_grad=0]. *)
Definition __init__ (optimizer_class' : option OptimizerClass)
  (lr' max_grad' : option Q) : result BaseCriticUpdater :=
  Ok {| optimizer_class := default Adam optimizer_class';
        lr := default (1 # 1000) lr';
        max_grad := default 0 max_grad' |}.

(** [for critic in cs: params.extend(critic.parameters())] *)
Fixpoint extend_all (cs : list Critic) (params : list Param) : M (list Param) :=
  match cs with
  | [] => ret params
  | critic :: cs' =>
      g <- parameters critic ;;
      ps <- list_of g ;;
      extend_all cs' (params ++ ps)
  end.

Definition _get_model_parameters (model : Model) : M Iterable :=
  match model with
  | IsCritic c => parameters c
  | IsActorCritic ac =>
      params <- extend_all (critics ac) [] ;;
      ret (FromList params)
  end.

Definition run_optimizer (optimizer : nat) (loss : Scalar)
  (critic_parameters : Iterable) : M unit :=
  zero_grad optimizer ;;
  backward loss ;;
  self_max_grad <- attr (fun self => max_grad (base self)) ;;
  (if Qgt_bool self_max_grad 0
   then clip_grad_norm_ critic_parameters self_max_grad
   else ret tt) ;;
  step optimizer.

End Methods.
End BaseCriticUpdater.

(** The [__init__] the three regression classes share word for word.
    Defaults: [loss_class=MSELoss()], [optimizer_class=Adam], [lr=0.001],
    [loss_coeff=1], [max_grad=0]. *)
Definition regression_init {L : TorchLib} (loss_class' : option LossModule)
  (optimizer_class' : option OptimizerClass) (lr' loss_coeff' max_grad' : option Q)
  : result Regression :=
  match BaseCriticUpdater.__init__
          (Some (default Adam optimizer_class'))
          (Some (default (1 # 1000) lr'))
          (Some (default 0 max_grad')) with
  | Ok b => Ok {| base := b;
                  loss_class := default MSELoss loss_class';
                  loss_coeff := default 1 loss_coeff' |}
  | Raise e => Raise e
  end.

(** ** [ValueRegression] *)

Module ValueRegression.
Section Methods.
Context {L : TorchLib}.

Definition __init__ := regression_init.

Definition __call__ (model : Model) (observations : Matrix) (returns : Matrix)
  : M UpdaterLog :=
  critic_parameters <- BaseCriticUpdater._get_model_parameters model ;;
  self_optimizer_class <- attr (fun self => optimizer_class (base self)) ;;
  self_lr <- attr (fun self => lr (base self)) ;;
  optimizer <- new_optimizer self_optimizer_class critic_parameters self_lr ;;
  s <- get ;;
  let values :=
    match model with
    | IsCritic c => c_forward c (weight s) [observations]
    | IsActorCritic ac => forward_critics ac (weight s) [observations]
    end in
  self_loss_coeff <- attr loss_coeff ;;
  self_loss_class <- attr loss_class ;;
  let loss := scale self_loss_coeff (self_loss_class values returns) in
  BaseCriticUpdater.run_optimizer optimizer loss critic_parameters ;;
  ret {| loss := item loss |}.

End Methods.
End ValueRegression.

(** ** [ContinuousQRegression] *)

Module ContinuousQRegression.
Section Methods.
Context {L : TorchLib}.

Definition __init__ := regression_init.

Definition __call__ (model : Model) (observations : Matrix) (actions : Matrix)
  (returns : Matrix) : M UpdaterLog :=
  critic_parameters <- BaseCriticUpdater._get_model_parameters model ;;
  self_optimizer_class <- attr (fun self => optimizer_class (base self)) ;;
  self_lr <- attr (fun self => lr (base self)) ;;
  optimizer <- new_optimizer self_optimizer_class critic_parameters self_lr ;;
  s <- get ;;
  let q_values :=
    match model with
    | IsCritic c => c_forward c (weight s) [observations; actions]
    | IsActorCritic ac => forward_critics ac (weight s) [observations; actions]
    end in
  self_loss_coeff <- attr loss_coeff ;;
  self_loss_class <- attr loss_class ;;
  let loss := scale self_loss_coeff (self_loss_class q_values returns) in
  BaseCriticUpdater.run_optimizer optimizer loss critic_parameters ;;
  ret {| loss := item loss |}.

End Methods.
End ContinuousQRegression.

(** ** [DiscreteQRegression] *)

Module DiscreteQRegression.
Section Methods.
Context {L : TorchLib}.

Definition __init__ := regression_init.

Definition __call__ (model : Model) (observations : Matrix) (returns : Matrix)
  (actions_index : Matrix) : M UpdaterLog :=
  critic_parameters <- BaseCriticUpdater._get_model_parameters model ;;
  self_optimizer_class <- attr (fun self => optimizer_class (base self)) ;;
  self_lr <- attr (fun self => lr (base self)) ;;
  optimizer <- new_optimizer self_optimizer_class critic_parameters self_lr ;;
  s <- get ;;
  let q_values :=
    match model with
    | IsCritic c => c_forward c (weight s) [observations]
    | IsActorCritic ac => forward_critics ac (weight s) [observations]
    end in
  let actions_index := to_torch actions_index in
  q_values <- T_gather q_values (long actions_index) ;;
  self_loss_coeff <- attr loss_coeff ;;
  self_loss_class <- attr loss_class ;;
  let loss := scale self_loss_coeff (self_loss_class q_values returns) in
  BaseCriticUpdater.run_optimizer optimizer loss critic_parameters ;;
  ret {| loss := item loss |}.

End Methods.
End DiscreteQRegression.

End Critics.

(** * Observations on traces *)

Module Trace.
Section WithCollaborators.
Context {C : Agent.Collaborators}.

Definition is_add (e : Agent.Event) : bool :=
  match e with
  | Agent.BufferAdd _ => true
  | _ => false
  end.

Definition is_fit (e : Agent.Event) : bool :=
  match e with
  | Agent.Fit _ _ _ => true
  | _ => false
  end.

(** How many transitions the trace appends to the buffer. *)
Definition count_adds (t : list Agent.Event) : nat := length (filter is_add t).

(** How many times the trace invokes [_fit]. *)
Definition count_fits (t : list Agent.Event) : nat := length (filter is_fit t).

(** For every invocation of [_fit] in the trace, in order: how many
    transitions were appended since the previous invocation ([acc] counts
    those seen so far). *)
Fixpoint adds_per_fit (acc : nat) (t : list Agent.Event) : list nat :=
  match t with
  | [] => []
  | Agent.BufferAdd _ :: t' => adds_per_fit (S acc) t'
  | Agent.Fit _ _ _ :: t' => acc :: adds_per_fit 0 t'
  | _ :: t' => adds_per_fit acc t'
  end.

(** The transitions the trace appends, in order. *)
Fixpoint added (t : list Agent.Event) : list Agent.Transition :=
  match t with
  | [] => []
  | Agent.BufferAdd x :: t' => x :: added t'
  | _ :: t' => added t'
  end.

(** The arguments of the calls of [env.step] in the trace, in order. *)
Fixpoint step_args (t : list Agent.Event) : list (option Agent.Act) :=
  match t with
  | [] => []
  | Agent.EnvStep a :: t' => a :: step_args t'
  | _ :: t' => step_args t'
  end.

(** The step and the value of every scalar written to the metrics sink under
    the tag reward, in order. *)
Fixpoint reward_scalars (t : list Agent.Event) : list (Z * option npfloat) :=
  match t with
  | [] => []
  | Agent.AddScalar tag value step :: t' =>
      if String.eqb tag "reward"
      then (step, value) :: reward_scalars t'
      else reward_scalars t'
  | _ :: t' => reward_scalars t'
  end.

(** The step and the reward of every [Log] handed to the logger, in order. *)
Fixpoint logged_rewards (t : list Agent.Event) : list (Z * npfloat) :=
  match t with
  | [] => []
  | Agent.LoggerInfo (Agent.StepLog step log) :: t' =>
      (step, Agent.log_reward log) :: logged_rewards t'
  | _ :: t' => logged_rewards t'
  end.

End WithCollaborators.
End Trace.

(** * Vocabulary of the statements about the training loop *)

Module AgentSpec.
Import Agent.
Section WithCollaborators.
Context {C : Collaborators}.

(** The action [step_env] chooses on an observation, with the agent and the
    event that result: the explorer's when there is one, else the model's. *)
Definition chosen_action (observation : Obs) (s : Agent) : Act * Agent * list Event :=
  match action_explorer s with
  | Some x => let '(a, x') := explorer_call observation x in
              (a, set_explorer x' s, [ExplorerCall observation])
  | None => let '(a, m) := model_call observation (model s) in
            (a, set_model m s, [ModelCall observation])
  end.

(** The events of one [_write_log], in order. *)
Definition write_log_events (log : Log) (step : Z) : list Event :=
  [AddScalar "reward" (Some (log_reward log)) step;
   AddScalar "actor_loss" (option_map fin (actor_loss log)) step;
   AddScalar "critic_loss" (option_map fin (critic_loss log)) step]
  ++ match kl_divergence log with
     | Some v => [AddScalar "kl_divergence" (Some (fin v)) step]
     | None => []
     end
  ++ match entropy log with
     | Some v => [AddScalar "entropy" (Some (fin v)) step]
     | None => []
     end
  ++ [LoggerInfo (StepLog step log)].

(** A stretch of trace that appends [n] transitions and never fits. *)
Definition collects (n : nat) (t : list Event) : Prop :=
  filter Trace.is_fit t = [] /\ Trace.count_adds t = n.

(** What [step_env] keeps fixed in the agent. *)
Definition same_config (s s' : Agent) : Prop :=
  buffer_size s' = buffer_size s /\
  is_rollout (buffer s') = is_rollout (buffer s).

(** How many environment steps the iteration numbered [step] takes. *)
Definition steps_of (batch_size step : Z) (s : Agent) : Z :=
  if (step =? 0)%Z then batch_size
  else if is_rollout (buffer s) then buffer_size s else 1%Z.

(** [_fit] leaves [buffer_size] and the kind of the buffer as they are. *)
Definition fit_keeps_config (_fit : Z -> Z -> Z -> Agent -> Log * Agent) : Prop :=
  forall bs ae ce s, same_config s (snd (_fit bs ae ce s)).

(** The agent as it is after the first [k] iterations of the loop of [fit]
    called on [s]. *)
Definition after_iterations (_fit : Z -> Z -> Z -> Agent -> Log * Agent)
  (batch_size actor_epochs critic_epochs : Z) (s : Agent) (k : nat) : Agent :=
  let '(o, e) := env_reset (env s) in
  snd (fst (for_each (range (Z.of_nat k))
              (fit_iteration _fit batch_size actor_epochs critic_epochs)
              o (set_env e s))).

End WithCollaborators.
End AgentSpec.

(** * Vocabulary of the statements about the updaters *)

Module CriticSpec.
Import Critics.

(** What the model answers on the given arguments with weights [w]:
    [model(...)] for a critic, [model.forward_critics(...)] otherwise. *)
Definition model_output (model : Model) (w : Param -> Q) (args : list Matrix)
  : Tensor :=
  match model with
  | IsCritic c => c_forward c w args
  | IsActorCritic ac => forward_critics ac w args
  end.

(** A backend call that constructs no optimizer and resets or steps no
    optimizer but [o]. *)
Definition uses_only (o : nat) (c : Call) : Prop :=
  match c with
  | NewOptimizer _ _ _ _ => False
  | ZeroGrad o' => o' = o
  | Step o' => o' = o
  | Backward _ => True
  | ClipGradNorm _ _ => True
  end.

(** What one call of an updater may change, from state [s] to state [s']:
    the updater object is as it was; the optimizers that existed are as they
    were and exactly one has been constructed, of the updater's
    [optimizer_class] with the updater's [lr], whose state is the initial
    state of the class or one update away from it; no other optimizer is
    reset or stepped. *)
Definition one_fresh_optimizer (s s' : State) : Prop :=
  let cls := optimizer_class (base (self s)) in
  let rate := lr (base (self s)) in
  let o := length (optimizers s) in
  self s' = self s /\
  exists ps st rest,
    optimizers s' =
      optimizers s ++
      [{| o_class := cls; o_params := ps; o_lr := rate; o_state := st |}] /\
    (st = init_state cls \/
     exists wgs, st = snd (update cls rate (init_state cls) wgs)) /\
    calls s' = calls s ++ NewOptimizer o cls ps rate :: rest /\
    Forall (uses_only o) rest.

(** The parameters of the critics of a model. *)
Definition critic_params (model : Model) : list Param :=
  match model with
  | IsCritic c => c_parameters c
  | IsActorCritic ac => flat_map c_parameters (critics ac)
  end.

(** The square of the Euclidean norm of the gradients [gs]. *)
Definition sum_of_squares (gs : list Q) : Q := Qsum (map (fun g => g * g) gs).

(** The constructor of the optimizer accepts what a call on [model] in
    state [s] hands it: the updater's [lr] is not negative and the critics
    of the model have a parameter. *)
Definition constructor_accepts (model : Model) (s : State) : Prop :=
  0 <= lr (base (self s)) /\ critic_params model <> [].

(** The outcome [out] of a call from state [s] in which the constructor
    raised: a [ValueError], the updater object, the weights and the
    gradients as they were, no optimizer built and no backend call made. *)
Definition built_none (A : Type) (s : State) (out : result A * State) : Prop :=
  (exists msg, fst out = Raise (ValueError msg)) /\
  self (snd out) = self s /\
  weight (snd out) = weight s /\
  grad (snd out) = grad s /\
  optimizers (snd out) = optimizers s /\
  calls (snd out) = calls s.

(** What one call of an updater on [model], from state [s] to the outcome
    [out], does about optimizers.  The updater object is as it was.  When
    the constructor accepts, exactly one fresh optimizer is built and used.
    When it does not, the call raises the constructor's [ValueError] and
    builds none. *)
Definition fresh_optimizer_per_call (A : Type) (model : Model) (s : State)
  (out : result A * State) : Prop :=
  self (snd out) = self s /\
  (constructor_accepts model s -> one_fresh_optimizer s (snd out)) /\
  (~ constructor_accepts model s -> built_none s out).

Section WithTorch.
Context {L : TorchLib}.

(** What is used of the norm the backend takes, of which the square root
    is not a rational function: it is never negative, scaling the gradients
    by a factor that is not negative scales it alike, and it is not below
    the Euclidean norm (its square is not below the sum of the squares). *)
Definition norm_laws : Prop :=
  (forall gs, 0 <= norm gs) /\
  (forall c gs, 0 <= c -> norm (map (Qmult c) gs) == c * norm gs) /\
  (forall gs, sum_of_squares gs <= norm gs * norm gs).

(** The state in which [run_optimizer] reaches [optimizer.step()]. *)
Definition before_step (o : nat) (opt : Optimizer) (l : Scalar) (it : Iterable)
  (s : State) : State :=
  let s2 :=
    add_call (Backward l)
      (set_grad (accumulated l (zeroed (o_params opt) (grad s)))
         (add_call (ZeroGrad o) s)) in
  if Qgt_bool (max_grad (base (self s))) 0 then
    add_call (ClipGradNorm (yields it s) (max_grad (base (self s))))
      (set_grad (clipped (yields it s) (max_grad (base (self s))) (grad s2))
         (consume it s2))
  else s2.

End WithTorch.

End CriticSpec.

(** * A small instance: a two-action environment

    The observation is the time step; the reward of a step is the time at
    which it is taken, plus [10] when the step is given action [1]; an
    episode ends at time [3].  The model always answers action [0], the
    explorer action [1]. *)

Module Example2.

#[local] Instance collaborators : Agent.Collaborators := {|
  Agent.Obs := Z;
  Agent.Act := Z;
  Agent.NpAct := Z;
  Agent.StepInfo := unit;
  Agent.EnvState := Z;
  Agent.ModelState := Z;
  Agent.ExplorerState := unit;
  Agent.StateDict := Z;
  Agent.env_reset := fun _ => (0%Z, 0%Z);
  Agent.env_step := fun arg t =>
    ((match arg with Some 1%Z => inject_Z (t + 10) | _ => inject_Z t end,
      (t + 1)%Z, (t + 1 =? 3)%Z, tt), (t + 1)%Z);
  Agent.model_call := fun _ m => (0%Z, m);
  Agent.explorer_call := fun _ x => (1%Z, x);
  Agent.torch_to_numpy := fun a => a;
  Agent.load_state_dict := fun d _ => Ok d
|}.

Definition empty_buffer (rollout : bool) (capacity : Z) : Agent.Buffer :=
  {| Agent.is_rollout := rollout; Agent.capacity := capacity;
     Agent.entries := [] |}.

(** An agent with a buffer of capacity 4, with or without an explorer. *)
Definition agent (rollout explore : bool) : Agent.Agent :=
  {| Agent.env := 0%Z;
     Agent.model := 7%Z;
     Agent.action_explorer := if explore then Some tt else None;
     Agent.buffer := empty_buffer rollout 4;
     Agent.buffer_size := 4%Z;
     Agent.verbose := true |}.

(** A [_fit] that reports a reward of its own and changes nothing. *)
Definition _fit (batch_size actor_epochs critic_epochs : Z) (a : Agent.Agent)
  : Agent.Log * Agent.Agent :=
  ({| Agent.log_reward := fin 42; Agent.actor_loss := Some 0;
      Agent.critic_loss := Some 0; Agent.kl_divergence := None;
      Agent.entropy := None |}, a).

(** No file anywhere. *)
Definition empty_fs : Agent.FileSystem := fun _ => None.

(** A critic for two actions over parameters [p0] and [p1]: on an
    observation [x] it answers the row [[w p0 * x; w p1 * x]]. *)
Definition row_of (p0 p1 : Critics.Param) (w : Critics.Param -> Q)
  (obs : list Q) : list Q :=
  match obs with
  | x :: _ => [w p0 * x; w p1 * x]
  | [] => [0; 0]
  end.

Definition drow_of (p0 p1 p : Critics.Param) (obs : list Q) : list Q :=
  match obs with
  | x :: _ => [if Nat.eqb p p0 then x else 0; if Nat.eqb p p1 then x else 0]
  | [] => [0; 0]
  end.

Definition linear_forward (p0 p1 : Critics.Param) (w : Critics.Param -> Q)
  (args : list Critics.Matrix) : Critics.Tensor :=
  let observations := hd [] args in
  {| Critics.values := map (row_of p0 p1 w) observations;
     Critics.dvalues := fun p => map (drow_of p0 p1 p) observations |}.

Definition critic (p0 p1 : Critics.Param) : Critics.Critic :=
  {| Critics.c_parameters := [p0; p1];
     Critics.c_forward := linear_forward p0 p1 |}.

(** An actor-critic with the twin critics over parameters [0; 1] and [2; 3]
    and an actor over parameter [4]; [forward_critics] is the first critic's
    answer. *)
Definition twin : Critics.ActorCritic :=
  {| Critics.actor_parameters := [4%nat];
     Critics.critics := [critic 0%nat 1%nat; critic 2%nat 3%nat];
     Critics.forward_critics := linear_forward 0%nat 1%nat |}.

(** Gradient descent with a running sum of the gradients it has seen kept
    in the optimizer's state: [w <- w - lr * (g + sum of earlier g)]. *)
Definition momentum : Critics.OptimizerClass :=
  {| Critics.init_state := [0];
     Critics.update := fun lr st wgs =>
       let m := hd 0 st in
       (map (fun wg => fst wg - lr * (snd wg + m)) wgs,
        [m + Qsum (map snd wgs)]) |}.

(** The sum of squared differences, derivatives included. *)
Definition squared_error : Critics.LossModule :=
  fun t target =>
    let v := concat (Critics.values t) in
    let r := concat target in
    {| Critics.item :=
         Qsum (map (fun vr => (fst vr - snd vr) * (fst vr - snd vr)) (combine v r));
       Critics.ditem := fun p =>
         Qsum (map (fun x => 2 * (fst (fst x) - snd (fst x)) * snd x)
                   (combine (combine v r) (concat (Critics.dvalues t p)))) |}.

(** The norm that sums the absolute values. *)
Definition sum_of_abs (gs : list Q) : Q := Qsum (map Qabs gs).

#[local] Instance torch : Critics.TorchLib := {|
  Critics.Adam := momentum;
  Critics.MSELoss := squared_error;
  Critics.norm := sum_of_abs;
  Critics.to_torch := fun m => m
|}.

(** An updater with learning rate [1/2] and the given [max_grad]. *)
Definition updater (max_grad : Q) : Critics.Regression :=
  {| Critics.base :=
       {| Critics.optimizer_class := momentum; Critics.lr := 1 # 2;
          Critics.max_grad := max_grad |};
     Critics.loss_class := squared_error;
     Critics.loss_coeff := 1 |}.

(** A world in which every weight is [1] and every gradient is [5]. *)
Definition world (max_grad : Q) : Critics.State :=
  {| Critics.self := updater max_grad;
     Critics.weight := fun _ => 1;
     Critics.grad := fun _ => 5;
     Critics.generators := [];
     Critics.optimizers := [];
     Critics.calls := [] |}.

(** The world of an updater whose learning rate is [-1]. *)
Definition world_negative_lr : Critics.State :=
  {| Critics.self :=
       {| Critics.base :=
            {| Critics.optimizer_class := momentum; Critics.lr := -1;
               Critics.max_grad := 0 |};
          Critics.loss_class := squared_error;
          Critics.loss_coeff := 1 |};
     Critics.weight := fun _ => 1;
     Critics.grad := fun _ => 5;
     Critics.generators := [];
     Critics.optimizers := [];
     Critics.calls := [] |}.

(** The same world after an optimizer over parameters [0; 1] has been
    constructed, and a loss whose derivatives are [4] and [12]. *)
Definition optimizer01 : Critics.Optimizer :=
  Critics.fresh_optimizer momentum [0%nat; 1%nat] (1 # 2).

Definition world_with_optimizer (max_grad : Q) : Critics.State :=
  Critics.set_optimizers [optimizer01] (world max_grad).

Definition loss5 : Critics.Scalar :=
  {| Critics.item := 5;
     Critics.ditem := fun p =>
       if Nat.eqb p 0 then 4 else if Nat.eqb p 1 then 12 else 0 |}.

End Example2.

(** * More of base_agent.py: [save] *)

Module Persistence.
Import Ascii Agent.

(** [os.path.dirname] (POSIX): the part of the path up to its last slash,
    without trailing slashes unless it is made of slashes only. *)
Definition is_slash (c : Ascii.ascii) : bool := Ascii.eqb c "/"%char.

Fixpoint has_slash (p : string) : bool :=
  match p with
  | EmptyString => false
  | String c p' => is_slash c || has_slash p'
  end.

(** [p[:p.rfind('/') + 1]] *)
Fixpoint up_to_last_slash (p : string) : string :=
  match p with
  | EmptyString => EmptyString
  | String c p' =>
      if has_slash p' then String c (up_to_last_slash p')
      else if is_slash c then String c EmptyString
      else EmptyString
  end.

Fixpoint all_slashes (p : string) : bool :=
  match p with
  | EmptyString => true
  | String c p' => is_slash c && all_slashes p'
  end.

(** [p.rstrip('/')] *)
Fixpoint rstrip_slashes (p : string) : string :=
  match p with
  | EmptyString => EmptyString
  | String c p' =>
      if all_slashes p' && is_slash c then EmptyString
      else String c (rstrip_slashes p')
  end.

Definition dirname (p : string) : string :=
  let head := up_to_last_slash p in
  if negb (String.eqb head "") && negb (all_slashes head)
  then rstrip_slashes head
  else head.

Section WithCollaborators.
Context {C : Collaborators}.

(** What [save] uses and the sources do not define: [model.state_dict()],
    what [os.makedirs(name, exist_ok=True)] does on a name that is not
    empty, and [T.save(d, path)]; the last two return or raise, and leave a
    file system either way. *)
Class Disk : Type := {
  state_dict : ModelState -> StateDict;
  os_makedirs : string -> FileSystem -> result unit * FileSystem;
  T_save : StateDict -> string -> FileSystem -> result unit * FileSystem
}.

Context {D : Disk}.

(** [os.makedirs(name, exist_ok=True)]: there is no directory of the empty
    name to make, and nothing is made. *)
Definition makedirs (name : string) (fs : FileSystem)
  : result unit * FileSystem :=
  if String.eqb name "" then (Raise FileNotFoundError, fs)
  else os_makedirs name fs.

(** [BaseAgent.save]: how it ends, the file system it leaves and what it
    has logged; what was done before a [raise] stays done. *)
Definition save (fs : FileSystem) (path : string) (self : Agent)
  : result unit * FileSystem * list Event :=
  let path := (path ++ ".pt")%string in
  let t := if verbose self
           then [LoggerInfo (Text ("Saving weights to " ++ path)%string)]
           else [] in
  match makedirs (dirname path) fs with
  | (Raise e, fs1) => (Raise e, fs1, t)
  | (Ok _, fs1) =>
      match T_save (state_dict (model self)) path fs1 with
      | (Raise e, fs2) => (Raise e, fs2, t)
      | (Ok _, fs2) => (Ok tt, fs2, t)
      end
  end.

End WithCollaborators.
End Persistence.

(** * More observations on traces *)

Module Trajectory.
Import Agent.
Section WithCollaborators.
Context {C : Collaborators}.

Definition is_reset (e : Event) : bool :=
  match e with
  | EnvReset => true
  | _ => false
  end.

Definition is_model_call (e : Event) : bool :=
  match e with
  | ModelCall _ => true
  | _ => false
  end.

Definition is_explorer_call (e : Event) : bool :=
  match e with
  | ExplorerCall _ => true
  | _ => false
  end.

(** How many times the trace resets the environment. *)
Definition count_resets (t : list Event) : nat := length (filter is_reset t).

(** How many of the transitions end an episode. *)
Definition count_done (ts : list Transition) : nat := length (filter done ts).

(** The transitions follow one another from observation [o]: each starts
    where the one before it led, unless that one ended an episode. *)
Fixpoint follows (o : Obs) (ts : list Transition) : Prop :=
  match ts with
  | [] => True
  | x :: ts' =>
      observation x = o /\
      match ts' with
      | [] => True
      | y :: _ =>
          (done x = false -> observation y = next_observation x) /\
          follows (observation y) ts'
      end
  end.

(** After the transitions [ts], begun at observation [o], the next
    observation is [o']: where the last transition led, unless it ended an
    episode. *)
Definition ends_at (o : Obs) (ts : list Transition) (o' : Obs) : Prop :=
  match rev ts with
  | [] => o' = o
  | x :: _ => done x = false -> o' = next_observation x
  end.

(** The transitions of a stretch of trace run on from [o] to [o']. *)
Definition runs_on (o : Obs) (t : list Event) (o' : Obs) : Prop :=
  follows o (Trace.added t) /\ ends_at o (Trace.added t) o' /\
  count_resets t = count_done (Trace.added t).

End WithCollaborators.
End Trajectory.

(** * More vocabulary about the updaters *)

Module UpdaterSpec.
Import Critics CriticSpec.

(** What [critic_parameters] still yields once the optimizer has been
    constructed from it: nothing when it is a generator. *)
Definition left_to_clip (model : Model) : list Param :=
  match model with
  | IsCritic _ => []
  | IsActorCritic ac => flat_map c_parameters (critics ac)
  end.

Definition is_clip (c : Call) : bool :=
  match c with
  | ClipGradNorm _ _ => true
  | _ => false
  end.

(** The backend calls of one call of an updater on [model] that
    backpropagates the loss [l], from state [s]. *)
Definition calls_of_update (model : Model) (l : Scalar) (s : State) : list Call :=
  let cls := optimizer_class (base (self s)) in
  let rate := lr (base (self s)) in
  let max_norm := max_grad (base (self s)) in
  let o := length (optimizers s) in
  [NewOptimizer o cls (critic_params model) rate; ZeroGrad o; Backward l]
  ++ (if Qgt_bool max_norm 0
      then [ClipGradNorm (left_to_clip model) max_norm]
      else [])
  ++ [Step o].

(** The tensor [T.gather] gives, from the values gathered. *)
Definition gathered_from (q : Tensor) (index : list (list Z)) (g : Matrix)
  : Tensor :=
  {| values := g;
     dvalues := fun p => or_empty (gather_rows (dvalues q p) index) |}.

Section WithTorch.
Context {L : TorchLib}.

(** The gradients one call of an updater leaves, from those of state [s]:
    reset for the critics' parameters, the loss's derivatives added, and
    what is still left to clip rescaled when [max_grad > 0]. *)
Definition grad_after_update (model : Model) (l : Scalar) (s : State)
  : Param -> Q :=
  let g1 := accumulated l (zeroed (critic_params model) (grad s)) in
  let max_norm := max_grad (base (self s)) in
  if Qgt_bool max_norm 0 then clipped (left_to_clip model) max_norm g1 else g1.

(** State [s'] is state [s] after one update of the critics of [model] on
    the loss [l]: the backend calls made, the gradients left and the
    weights, stepped once by a new optimizer over the critics' parameters. *)
Definition updated (model : Model) (l : Scalar) (s s' : State) : Prop :=
  calls s' = calls s ++ calls_of_update model l s /\
  (forall p, grad s' p = grad_after_update model l s p) /\
  (forall p,
     weight s' p =
       step_weights
         (fresh_optimizer (optimizer_class (base (self s)))
                          (critic_params model) (lr (base (self s))))
         (weight s) (grad_after_update model l s) p).

End WithTorch.

End UpdaterSpec.

(** * enumerations.py *)

Module Enumerations.

Module NetworkType.
Inductive t : Type := MLP | PARAMETER.

(** [member.value] *)
Definition value (m : t) : string :=
  match m with
  | MLP => "mlp"
  | PARAMETER => "parameter"
  end.

(** The members, in the order of definition. *)
Definition members : list t := [MLP; PARAMETER].
End NetworkType.

Module TrajectoryType.
Inductive t : Type := NUMPY | TORCH.

Definition value (m : t) : string :=
  match m with
  | NUMPY => "numpy"
  | TORCH => "torch"
  end.

Definition members : list t := [NUMPY; TORCH].
End TrajectoryType.

Module TrainFrequencyType.
Inductive t : Type := EPISODE | STEP.

Definition value (m : t) : string :=
  match m with
  | EPISODE => "episode"
  | STEP => "step"
  end.

Definition members : list t := [EPISODE; STEP].
End TrainFrequencyType.

Module HERGoalStrategy.
Inductive t : Type := FINAL | FUTURE | EPISODE | RANDOM.

Definition value (m : t) : string :=
  match m with
  | FINAL => "final"
  | FUTURE => "future"
  | EPISODE => "episode"
  | RANDOM => "random"
  end.

Definition members : list t := [FINAL; FUTURE; EPISODE; RANDOM].
End HERGoalStrategy.

(** [Class(value)]: the member of that value; [None] stands for the
    [ValueError] raised when there is none. *)
Definition by_value (E : Type) (value_of : E -> string) (members : list E)
  (v : string) : option E :=
  find (fun m => String.eqb (value_of m) v) members.

End Enumerations.

(** * A disk for the small instance *)

Module Example3.

(** The state dict of the toy model is its weight; directories always can
    be made; saving writes the checkpoint at the path. *)
#[local] Instance disk : Persistence.Disk (C := Example2.collaborators) :=
  @Persistence.Build_Disk Example2.collaborators
    (fun m => m)
    (fun _ fs => (Ok tt, fs))
    (fun d p fs =>
       (Ok tt,
        fun q => if String.eqb q p then Some (Agent.Checkpoint d) else fs q)).

(** A file system with one entry. *)
Definition fs_with (p : string) (e : Agent.FsEntry (C := Example2.collaborators))
  : Agent.FileSystem :=
  fun q => if String.eqb q p then Some e else None.

(** A checkpoint of weight [9], and a file that is no checkpoint, both at
    [weights.pt]. *)
Definition fs_checkpoint : Agent.FileSystem :=
  fs_with "weights.pt" (@Agent.Checkpoint Example2.collaborators 9%Z).

Definition fs_other : Agent.FileSystem :=
  fs_with "weights.pt" (@Agent.OtherFile Example2.collaborators).

(** The world of an updater constructed with every argument left to its
    default. *)
Definition default_world : Critics.State :=
  match Critics.ValueRegression.__init__ (L := Example2.torch)
          None None None None None with
  | Ok u =>
      {| Critics.self := u;
         Critics.weight := fun _ => 1;
         Critics.grad := fun _ => 5;
         Critics.generators := [];
         Critics.optimizers := [];
         Critics.calls := [] |}
  | Raise _ => Example2.world 0
  end.

End Example3.

(** * Properties of the training loop *)

Section AgentProperties.
Import Agent AgentSpec.
Context {C : Collaborators}.
Local Open Scope agent_scope.

Lemma step_env_body_unfold (observation : Obs) (s : Agent) :
  step_env_body observation s =
    let '(a, s1, t1) := chosen_action observation s in
    let '((r, o', d, _), e) := env_step None (env s1) in
    let t := {| observation := observation; action := torch_to_numpy a;
                reward := r; next_observation := o'; done := d |} in
    let s2 := set_buffer (add_trajectory t (buffer s1)) (set_env e s1) in
    if d then
      let '(o0, e0) := env_reset (env s2) in
      (o0, set_env e0 s2, t1 ++ [EnvStep None; BufferAdd t; EnvReset])
    else (o', s2, t1 ++ [EnvStep None; BufferAdd t]).
Proof.
  unfold step_env_body, chosen_action, call_explorer, call_model, call_env_step,
    call_add_trajectory, call_env_reset, bind, ret, emit, get_self, put_self.
  destruct (action_explorer s) as [x|].
  - destruct (explorer_call observation x) as [a x']. cbn.
    destruct (env_step None (env s)) as [[[[r o'] d] i] e]. cbn.
    destruct d; cbn.
    + destruct (env_reset e) as [o0 e0]. reflexivity.
    + reflexivity.
  - destruct (model_call observation (model s)) as [a m]. cbn.
    destruct (env_step None (env s)) as [[[[r o'] d] i] e]. cbn.
    destruct d; cbn.
    + destruct (env_reset e) as [o0 e0]. reflexivity.
    + reflexivity.
Qed.

Lemma collects_nil : collects 0 [].
Proof. split; reflexivity. Qed.

Lemma collects_app n m t u :
  collects n t -> collects m u -> collects (n + m) (t ++ u).
Proof.
  unfold collects, Trace.count_adds. intros [Hf Ha] [Hf' Ha'].
  rewrite !filter_app, Hf, Hf', length_app, Ha, Ha'. auto.
Qed.

Lemma adds_per_fit_collects n t acc rest :
  collects n t ->
  Trace.adds_per_fit acc (t ++ rest) = Trace.adds_per_fit (acc + n) rest.
Proof.
  revert n acc. induction t as [|e t IH]; intros n acc [Hf Ha].
  - cbn in Ha. subst n. now rewrite Nat.add_0_r.
  - unfold Trace.count_adds in Ha.
    destruct e; cbn in Hf, Ha; try discriminate;
      try (cbn; rewrite (IH n acc); [reflexivity | split; assumption]).
    destruct n as [|n]; [discriminate|]. cbn.
    rewrite (IH n (S acc)); [f_equal; lia | split; [assumption | unfold Trace.count_adds; lia]].
Qed.

Lemma same_config_refl s : same_config s s.
Proof. split; reflexivity. Qed.

Lemma same_config_trans s1 s2 s3 :
  same_config s1 s2 -> same_config s2 s3 -> same_config s1 s3.
Proof. unfold same_config. intros [? ?] [? ?]. split; congruence. Qed.

Lemma step_env_body_collects observation s :
  let '(_, s', t) := step_env_body observation s in
  collects 1 t /\ same_config s s' /\ Trace.step_args t = [None] /\
  Trace.reward_scalars t = [] /\ Trace.logged_rewards t = [].
Proof.
  rewrite step_env_body_unfold. unfold chosen_action.
  destruct (action_explorer s) as [x|].
  - destruct (explorer_call observation x) as [a x']. cbn.
    destruct (env_step None (env s)) as [[[[r o'] d] i] e]. cbn.
    destruct d; [destruct (env_reset e) as [o0 e0]|];
      repeat split; reflexivity.
  - destruct (model_call observation (model s)) as [a m]. cbn.
    destruct (env_step None (env s)) as [[[[r o'] d] i] e]. cbn.
    destruct d; [destruct (env_reset e) as [o0 e0]|];
      repeat split; reflexivity.
Qed.

Lemma step_args_app t u :
  Trace.step_args (t ++ u) = Trace.step_args t ++ Trace.step_args u.
Proof.
  induction t as [|e t IH]; [reflexivity|].
  destruct e; cbn; rewrite ?IH; reflexivity.
Qed.

Lemma reward_scalars_app t u :
  Trace.reward_scalars (t ++ u) = Trace.reward_scalars t ++ Trace.reward_scalars u.
Proof.
  induction t as [|e t IH]; [reflexivity|].
  destruct e; cbn; rewrite ?IH; try reflexivity.
  destruct (String.eqb tag "reward"); reflexivity.
Qed.

Lemma logged_rewards_app t u :
  Trace.logged_rewards (t ++ u) = Trace.logged_rewards t ++ Trace.logged_rewards u.
Proof.
  induction t as [|e t IH]; [reflexivity|].
  destruct e as [| | | | | | |[]]; cbn; rewrite ?IH; reflexivity.
Qed.

Lemma step_env_loop_collects (xs : list Z) observation s :
  let '(_, s', t) :=
    for_each xs (fun _ obs => step_env_body obs) observation s in
  collects (length xs) t /\ same_config s s' /\
  Trace.step_args t = repeat None (length xs) /\
  Trace.reward_scalars t = [] /\ Trace.logged_rewards t = [].
Proof.
  revert observation s. induction xs as [|x xs IH]; intros observation s.
  - cbn. split; [apply collects_nil | split; [apply same_config_refl | repeat split]].
  - cbn [for_each]. unfold bind.
    pose proof (step_env_body_collects observation s) as H1.
    destruct (step_env_body observation s) as [[o1 s1] t1].
    destruct H1 as (Hc1 & Hs1 & Ha1 & Hq1 & Hl1).
    specialize (IH o1 s1).
    destruct (for_each xs (fun _ obs => step_env_body obs) o1 s1) as [[o2 s2] t2].
    destruct IH as (Hc2 & Hs2 & Ha2 & Hq2 & Hl2).
    split; [|split; [|split; [|split]]].
    + apply (collects_app Hc1 Hc2).
    + eapply same_config_trans; eassumption.
    + rewrite step_args_app, Ha1, Ha2. reflexivity.
    + rewrite reward_scalars_app, Hq1, Hq2. reflexivity.
    + rewrite logged_rewards_app, Hl1, Hl2. reflexivity.
Qed.

Lemma length_range n : length (range n) = Z.to_nat n.
Proof. unfold range. now rewrite length_map, length_seq. Qed.

Lemma step_env_collects observation num_steps s :
  let '(_, s', t) := step_env observation num_steps s in
  collects (Z.to_nat num_steps) t /\ same_config s s' /\
  Trace.step_args t = repeat None (Z.to_nat num_steps) /\
  Trace.reward_scalars t = [] /\ Trace.logged_rewards t = [].
Proof.
  unfold step_env.
  pose proof (step_env_loop_collects (range num_steps) observation s) as H.
  rewrite length_range in H. exact H.
Qed.


Lemma write_log_run log step s :
  _write_log log step s = (tt, s, write_log_events log step).
Proof.
  unfold _write_log, write_log_events, bind, emit, ret.
  destruct (kl_divergence log), (entropy log); reflexivity.
Qed.

Lemma write_log_events_quiet log step :
  collects 0 (write_log_events log step).
Proof.
  unfold write_log_events, collects, Trace.count_adds.
  destruct (kl_divergence log), (entropy log); split; reflexivity.
Qed.

Lemma write_log_events_reward log step :
  Trace.reward_scalars (write_log_events log step) =
    [(step, Some (log_reward log))] /\
  Trace.logged_rewards (write_log_events log step) = [(step, log_reward log)].
Proof.
  unfold write_log_events.
  destruct (kl_divergence log), (entropy log); split; reflexivity.
Qed.

Section WithFit.
Variable _fit : Z -> Z -> Z -> Agent -> Log * Agent.

Lemma fit_iteration_unfold bs ae ce step observation s :
  fit_iteration _fit bs ae ce step observation s =
    let '(o, s1, t1) := step_env observation (steps_of bs step s) s in
    let '(log, s2) := _fit bs ae ce s1 in
    (o, s2,
     t1 ++ Fit bs ae ce ::
       write_log_events
         (set_reward (np_mean (rewards (last bs (buffer s2)))) log) step).
Proof.
  unfold fit_iteration, steps_of, call__fit, bind, get_self, put_self, emit, ret.
  destruct (step =? 0)%Z; [|destruct (is_rollout (buffer s))].
  all: match goal with
       | |- context [step_env ?o ?n ?s] =>
           destruct (step_env o n s) as [[o1 s1] t1]
       end.
  all: destruct (_fit bs ae ce s1) as [log s2]; cbv beta iota zeta.
  all: rewrite write_log_run; cbn; rewrite ?app_nil_r; reflexivity.
Qed.

Lemma count_fits_app t u :
  Trace.count_fits (t ++ u) = (Trace.count_fits t + Trace.count_fits u)%nat.
Proof. unfold Trace.count_fits. now rewrite filter_app, length_app. Qed.

Lemma count_adds_app t u :
  Trace.count_adds (t ++ u) = (Trace.count_adds t + Trace.count_adds u)%nat.
Proof. unfold Trace.count_adds. now rewrite filter_app, length_app. Qed.

Lemma count_fits_collects n t : collects n t -> Trace.count_fits t = 0%nat.
Proof. unfold Trace.count_fits. intros [-> _]. reflexivity. Qed.

Lemma fit_iteration_schedule bs ae ce step observation s :
  fit_keeps_config _fit ->
  let '(_, s', t) := fit_iteration _fit bs ae ce step observation s in
  same_config s s' /\
  Trace.count_fits t = 1%nat /\
  Trace.count_adds t = Z.to_nat (steps_of bs step s) /\
  forall rest,
    Trace.adds_per_fit 0 (t ++ rest) =
      Z.to_nat (steps_of bs step s) :: Trace.adds_per_fit 0 rest.
Proof.
  intros Hk. rewrite fit_iteration_unfold.
  pose proof (step_env_collects observation (steps_of bs step s) s) as H1.
  destruct (step_env observation (steps_of bs step s) s) as [[o1 s1] t1].
  destruct H1 as (Hc1 & Hs1 & _).
  pose proof (Hk bs ae ce s1) as H2.
  destruct (_fit bs ae ce s1) as [log s2]. cbn in H2.
  remember (write_log_events _ step) as w eqn:Ew.
  assert (Hw : collects 0 w) by (subst w; apply write_log_events_quiet). clear Ew.
  split; [eapply same_config_trans; eassumption|].
  split; [|split].
  - rewrite count_fits_app, (count_fits_collects Hc1).
    change (Fit bs ae ce :: w) with ([Fit bs ae ce] ++ w).
    rewrite count_fits_app, (count_fits_collects Hw). reflexivity.
  - rewrite count_adds_app. destruct Hc1 as [_ ->].
    change (Fit bs ae ce :: w) with ([Fit bs ae ce] ++ w).
    rewrite count_adds_app. destruct Hw as [_ ->]. cbn. lia.
  - intros rest. rewrite <- app_assoc.
    rewrite (adds_per_fit_collects 0 _ Hc1). cbn.
    f_equal. rewrite (adds_per_fit_collects 0 _ Hw). reflexivity.
Qed.

Lemma steps_of_same_config bs step s s' :
  same_config s s' -> steps_of bs step s' = steps_of bs step s.
Proof. unfold steps_of. intros [-> ->]. reflexivity. Qed.

Lemma fit_loop_schedule bs ae ce (xs : list Z) observation s :
  fit_keeps_config _fit ->
  let '(_, s', t) :=
    for_each xs (fit_iteration _fit bs ae ce) observation s in
  same_config s s' /\
  Trace.count_fits t = length xs /\
  Trace.count_adds t =
    list_sum (map (fun step => Z.to_nat (steps_of bs step s)) xs) /\
  forall rest,
    Trace.adds_per_fit 0 (t ++ rest) =
      map (fun step => Z.to_nat (steps_of bs step s)) xs
      ++ Trace.adds_per_fit 0 rest.
Proof.
  intros Hk. revert observation s.
  induction xs as [|x xs IH]; intros observation s.
  - cbn. split; [apply same_config_refl | repeat split].
  - cbn [for_each]. unfold bind.
    pose proof (fit_iteration_schedule bs ae ce x observation s Hk) as H1.
    destruct (fit_iteration _fit bs ae ce x observation s) as [[o1 s1] t1].
    destruct H1 as (Hs1 & Hf1 & Ha1 & Hp1).
    specialize (IH o1 s1).
    destruct (for_each xs (fit_iteration _fit bs ae ce) o1 s1) as [[o2 s2] t2].
    destruct IH as (Hs2 & Hf2 & Ha2 & Hp2).
    assert (Hmap : map (fun step => Z.to_nat (steps_of bs step s1)) xs =
                   map (fun step => Z.to_nat (steps_of bs step s)) xs).
    { apply map_ext. intros step. now rewrite (steps_of_same_config bs step Hs1). }
    rewrite Hmap in *.
    split; [eapply same_config_trans; eassumption|].
    split; [|split].
    + rewrite count_fits_app, Hf1, Hf2. reflexivity.
    + rewrite count_adds_app, Ha1, Ha2. reflexivity.
    + intros rest. rewrite <- app_assoc, Hp1, Hp2. reflexivity.
Qed.

Lemma fit_unfold num_steps bs ae ce s :
  fit _fit num_steps bs ae ce s =
    match (if is_rollout (buffer s)
           then floordiv num_steps (buffer_size s)
           else Ok num_steps) with
    | Raise e => Raise e
    | Ok n =>
        let '(o, e) := env_reset (env s) in
        let '(_, s', t) :=
          for_each (range n) (fit_iteration _fit bs ae ce) o (set_env e s) in
        Ok (s', EnvReset :: t)
    end.
Proof.
  unfold fit, call_env_reset, bind, get_self, put_self, emit, ret.
  destruct (if is_rollout (buffer s) then _ else _) as [n|e]; [|reflexivity].
  destruct (env_reset (env s)) as [o e]. cbn.
  destruct (for_each (range n) (fit_iteration _fit bs ae ce) o (set_env e s))
    as [[o' s'] t]. reflexivity.
Qed.

Lemma length_adds_per_fit acc t :
  length (Trace.adds_per_fit acc t) = Trace.count_fits t.
Proof.
  revert acc. induction t as [|e t IH]; intros acc; [reflexivity|].
  destruct e; cbn; rewrite ?IH; reflexivity.
Qed.

Lemma nth_map_range (f : Z -> nat) n k :
  (k < Z.to_nat n)%nat -> nth k (map f (range n)) 0%nat = f (Z.of_nat k).
Proof.
  intros Hk. unfold range. rewrite map_map.
  rewrite (nth_indep _ 0%nat (f (Z.of_nat 0))) by now rewrite length_map, length_seq.
  rewrite (map_nth (fun x => f (Z.of_nat x))), seq_nth by assumption.
  reflexivity.
Qed.

Lemma list_sum_ones (f : Z -> nat) start len :
  (forall k, (start <= k)%nat -> f (Z.of_nat k) = 1%nat) ->
  list_sum (map f (map Z.of_nat (seq start len))) = len.
Proof.
  revert start. induction len as [|len IH]; intros start H; [reflexivity|].
  cbn. rewrite H by lia. rewrite IH; [reflexivity|]. intros k Hk. apply H. lia.
Qed.

(** The whole run, whatever the kind of the buffer: [n] iterations, the
    iteration numbered [step] collecting [steps_of batch_size step s]
    transitions before it fits. *)
Lemma fit_schedule n bs ae ce s :
  fit_keeps_config _fit ->
  let '(o, e) := env_reset (env s) in
  let '(_, s', t) :=
    for_each (range n) (fit_iteration _fit bs ae ce) o (set_env e s) in
  Trace.count_fits (EnvReset :: t) = Z.to_nat n /\
  Trace.count_adds (EnvReset :: t) =
    list_sum (map (fun step => Z.to_nat (steps_of bs step s)) (range n)) /\
  Trace.adds_per_fit 0 (EnvReset :: t) =
    map (fun step => Z.to_nat (steps_of bs step s)) (range n).
Proof.
  intros Hk. destruct (env_reset (env s)) as [o e].
  pose proof (fit_loop_schedule bs ae ce (range n) o (set_env e s) Hk) as H.
  destruct (for_each (range n) (fit_iteration _fit bs ae ce) o (set_env e s))
    as [[o' s'] t].
  destruct H as (_ & Hf & Ha & Hp).
  change (steps_of bs) with (fun step => steps_of bs step) in *.
  split; [|split].
  - change (Trace.count_fits (EnvReset :: t)) with (Trace.count_fits t).
    now rewrite Hf, length_range.
  - change (Trace.count_adds (EnvReset :: t)) with (Trace.count_adds t).
    rewrite Ha. reflexivity.
  - change (Trace.adds_per_fit 0 (EnvReset :: t)) with (Trace.adds_per_fit 0 t).
    specialize (Hp []). rewrite !app_nil_r in Hp. rewrite Hp. reflexivity.
Qed.

End WithFit.

(** C2.  On-policy scheduling.  With a rollout buffer, [fit] called with
    [num_steps >= 0] on an agent whose [buffer_size] (the capacity its
    buffer was built with) is [C > 0] returns, invokes [_fit] exactly
    [num_steps / C] times (floor division), and before every invocation
    other than the first appends exactly [C] transitions to the buffer.
    [_fit] is any method that leaves [buffer_size] and the kind of the
    buffer unchanged. *)
Theorem fit_on_policy_schedule
  (_fit : Z -> Z -> Z -> Agent -> Log * Agent)
  (num_steps batch_size actor_epochs critic_epochs : Z) (s : Agent) :
  fit_keeps_config _fit ->
  is_rollout (buffer s) = true ->
  (0 < buffer_size s)%Z ->
  (0 <= num_steps)%Z ->
  exists s' t,
    fit _fit num_steps batch_size actor_epochs critic_epochs s = Ok (s', t) /\
    Z.of_nat (Trace.count_fits t) = (num_steps / buffer_size s)%Z /\
    length (Trace.adds_per_fit 0 t) = Trace.count_fits t /\
    forall k, (0 < k < Trace.count_fits t)%nat ->
      Z.of_nat (nth k (Trace.adds_per_fit 0 t) 0%nat) = buffer_size s.
Proof.
  intros Hk Hr HC HN. rewrite fit_unfold, Hr. unfold floordiv.
  destruct (Z.eqb_spec (buffer_size s) 0) as [E|_]; [lia|].
  pose proof (fit_schedule (num_steps / buffer_size s) batch_size
                actor_epochs critic_epochs s Hk) as H.
  destruct (env_reset (env s)) as [o e].
  destruct (for_each _ _ o (set_env e s)) as [[o' s'] t].
  destruct H as (Hf & _ & Hp).
  exists s', (EnvReset :: t). split; [reflexivity|].
  assert (0 <= num_steps / buffer_size s)%Z by (apply Z.div_pos; lia).
  split; [rewrite Hf; lia|]. split; [apply length_adds_per_fit|].
  intros k Hlt. rewrite Hf in Hlt. rewrite Hp, nth_map_range by lia.
  unfold steps_of. rewrite Hr.
  destruct (Z.eqb_spec (Z.of_nat k) 0); lia.
Qed.

(** C3.  Off-policy scheduling.  With a buffer that is not a rollout buffer,
    [fit] called with [num_steps >= 1] and [batch_size >= 0] returns,
    invokes [_fit] exactly [num_steps] times, appends exactly [batch_size]
    transitions before the first invocation and exactly one before every
    later one: [batch_size + (num_steps - 1)] transitions in all. *)
Theorem fit_off_policy_schedule
  (_fit : Z -> Z -> Z -> Agent -> Log * Agent)
  (num_steps batch_size actor_epochs critic_epochs : Z) (s : Agent) :
  fit_keeps_config _fit ->
  is_rollout (buffer s) = false ->
  (1 <= num_steps)%Z ->
  (0 <= batch_size)%Z ->
  exists s' t,
    fit _fit num_steps batch_size actor_epochs critic_epochs s = Ok (s', t) /\
    Z.of_nat (Trace.count_fits t) = num_steps /\
    length (Trace.adds_per_fit 0 t) = Trace.count_fits t /\
    Z.of_nat (nth 0 (Trace.adds_per_fit 0 t) 0%nat) = batch_size /\
    (forall k, (0 < k < Trace.count_fits t)%nat ->
       nth k (Trace.adds_per_fit 0 t) 0%nat = 1%nat) /\
    Z.of_nat (Trace.count_adds t) = (batch_size + (num_steps - 1))%Z.
Proof.
  intros Hk Hr HN HB. rewrite fit_unfold, Hr.
  pose proof (fit_schedule num_steps batch_size
                actor_epochs critic_epochs s Hk) as H.
  destruct (env_reset (env s)) as [o e].
  destruct (for_each _ _ o (set_env e s)) as [[o' s'] t].
  destruct H as (Hf & Ha & Hp).
  exists s', (EnvReset :: t). split; [reflexivity|].
  split; [rewrite Hf; lia|]. split; [apply length_adds_per_fit|].
  split; [|split].
  - rewrite Hp, nth_map_range by lia. unfold steps_of. cbn. lia.
  - intros k Hlt. rewrite Hf in Hlt. rewrite Hp, nth_map_range by lia.
    unfold steps_of. rewrite Hr.
    destruct (Z.eqb_spec (Z.of_nat k) 0); [lia | reflexivity].
  - rewrite Ha. unfold range.
    destruct (Z.to_nat num_steps) as [|m] eqn:Em; [lia|].
    cbn [seq map list_sum fold_right].
    fold (list_sum (map (fun step => Z.to_nat (steps_of batch_size step s))
                        (map Z.of_nat (seq 1 m)))).
    rewrite list_sum_ones.
    + unfold steps_of. cbn. lia.
    + intros k Hge. unfold steps_of. rewrite Hr.
      destruct (Z.eqb_spec (Z.of_nat k) 0); [lia | reflexivity].
Qed.

(** What one iteration logs: whatever [Log] the call of [_fit] returned, the
    log handed to [_write_log] is that log with its reward replaced by the
    mean of the rewards of the [batch_size] most recent entries of the buffer
    as [_fit] left it. *)
Lemma fit_iteration_logs_mean
  (_fit : Z -> Z -> Z -> Agent -> Log * Agent)
  (batch_size actor_epochs critic_epochs step : Z) (observation : Obs)
  (s : Agent) :
  let '(_, s', t) :=
    fit_iteration _fit batch_size actor_epochs critic_epochs step observation s in
  let m := np_mean (rewards (last batch_size (buffer s'))) in
  Trace.reward_scalars t = [(step, Some m)] /\
  Trace.logged_rewards t = [(step, m)] /\
  exists o1 s1 t1,
    step_env observation (steps_of batch_size step s) s = (o1, s1, t1) /\
    s' = snd (_fit batch_size actor_epochs critic_epochs s1) /\
    t = t1 ++ Fit batch_size actor_epochs critic_epochs ::
          write_log_events
            (set_reward m (fst (_fit batch_size actor_epochs critic_epochs s1)))
            step.
Proof.
  rewrite fit_iteration_unfold.
  pose proof (step_env_collects observation (steps_of batch_size step s) s) as H1.
  destruct (step_env observation (steps_of batch_size step s) s) as [[o1 s1] t1].
  destruct H1 as (_ & _ & _ & Hq & Hl).
  destruct (_fit batch_size actor_epochs critic_epochs s1) as [log s2] eqn:E.
  cbv zeta.
  destruct (write_log_events_reward
              (set_reward (np_mean (rewards (last batch_size (buffer s2)))) log)
              step) as [Hw1 Hw2].
  split; [|split].
  - rewrite reward_scalars_app, Hq. cbn [Trace.reward_scalars app].
    rewrite Hw1. reflexivity.
  - rewrite logged_rewards_app, Hl. cbn [Trace.logged_rewards app].
    rewrite Hw2. reflexivity.
  - exists o1, s1, t1. rewrite E. repeat split.
Qed.

Lemma range_succ (k : nat) :
  range (Z.of_nat (S k)) = range (Z.of_nat k) ++ [Z.of_nat k].
Proof.
  unfold range. rewrite !Nat2Z.id, seq_S, map_app. reflexivity.
Qed.

Lemma for_each_app (A : Type) (xs ys : list Z) (body : Z -> A -> M A) a s :
  for_each (xs ++ ys) body a s =
    let '(a1, s1, t1) := for_each xs body a s in
    let '(a2, s2, t2) := for_each ys body a1 s1 in
    (a2, s2, t1 ++ t2).
Proof.
  revert a s. induction xs as [|x xs IH]; intros a s.
  - cbn. destruct (for_each ys body a s) as [[a2 s2] t2]. reflexivity.
  - cbn [for_each app]. unfold bind.
    destruct (body x a s) as [[a0 s0] t0]. rewrite IH.
    destruct (for_each xs body a0 s0) as [[a1 s1] t1].
    destruct (for_each ys body a1 s1) as [[a2 s2] t2].
    now rewrite app_assoc.
Qed.

(** The rewards logged by the first [k] iterations of the loop of [fit]. *)
Lemma fit_loop_logs_mean
  (_fit : Z -> Z -> Z -> Agent -> Log * Agent)
  (batch_size actor_epochs critic_epochs : Z) (o0 : Obs) (s0 : Agent) (k : nat) :
  let body := fit_iteration _fit batch_size actor_epochs critic_epochs in
  let mean_after j :=
    np_mean (rewards (last batch_size
      (buffer (snd (fst (for_each (range (Z.of_nat (S j))) body o0 s0)))))) in
  let t := snd (for_each (range (Z.of_nat k)) body o0 s0) in
  Trace.reward_scalars t =
    map (fun j => (Z.of_nat j, Some (mean_after j))) (seq 0 k) /\
  Trace.logged_rewards t =
    map (fun j => (Z.of_nat j, mean_after j)) (seq 0 k).
Proof.
  cbv zeta. induction k as [|k [IH1 IH2]]; [split; reflexivity|].
  rewrite !seq_S, !map_app. cbn [map Nat.add].
  rewrite (range_succ k), !for_each_app.
  destruct (for_each (range (Z.of_nat k)) _ o0 s0) as [[o1 s1] t1].
  cbn [for_each]. unfold bind.
  pose proof (fit_iteration_logs_mean _fit batch_size actor_epochs critic_epochs
                (Z.of_nat k) o1 s1) as H.
  destruct (fit_iteration _fit batch_size actor_epochs critic_epochs
              (Z.of_nat k) o1 s1) as [[o2 s2] t2].
  destruct H as (H1 & H2 & _).
  cbn [ret snd fst] in *. rewrite !app_nil_r.
  rewrite reward_scalars_app, logged_rewards_app, IH1, IH2, H1, H2.
  split; reflexivity.
Qed.

(** C7.  The reward that is logged.  In a run of [fit], for every iteration
    [k] in turn, the one value written to the metrics sink under the tag
    reward, keyed by [k], and the reward of the [Log] handed to the logger
    are the mean ([np.mean]) of the rewards of the [batch_size] most recent
    entries of the buffer as it is at the end of iteration [k], after [_fit];
    [_fit] is arbitrary, so whatever reward its [Log] carried is overwritten. *)
Theorem fit_logs_mean_of_last_rewards
  (_fit : Z -> Z -> Z -> Agent -> Log * Agent)
  (num_steps batch_size actor_epochs critic_epochs : Z) (s s' : Agent)
  (t : list Event) :
  fit _fit num_steps batch_size actor_epochs critic_epochs s = Ok (s', t) ->
  let n := Z.to_nat (if is_rollout (buffer s)
                     then (num_steps / buffer_size s)%Z
                     else num_steps) in
  let mean_after k :=
    np_mean
      (map reward
         (lastn (Z.to_nat batch_size)
            (entries
               (buffer
                  (after_iterations _fit batch_size actor_epochs critic_epochs
                     s (S k)))))) in
  Trace.reward_scalars t =
    map (fun k => (Z.of_nat k, Some (mean_after k))) (seq 0 n) /\
  Trace.logged_rewards t =
    map (fun k => (Z.of_nat k, mean_after k)) (seq 0 n).
Proof.
  rewrite fit_unfold. intros H. cbv zeta.
  set (iters := if is_rollout (buffer s)
                then (num_steps / buffer_size s)%Z else num_steps).
  assert (Hn : exists n, (if is_rollout (buffer s)
                          then floordiv num_steps (buffer_size s)
                          else Ok num_steps) = Ok n /\ n = iters).
  { unfold iters, floordiv in *. destruct (is_rollout (buffer s)).
    - destruct (buffer_size s =? 0)%Z; [discriminate H | eauto].
    - eauto. }
  destruct Hn as (n & Hn & ->). rewrite Hn in H.
  unfold after_iterations.
  destruct (env_reset (env s)) as [o e].
  pose proof (fit_loop_logs_mean _fit batch_size actor_epochs critic_epochs
                o (set_env e s) (Z.to_nat iters)) as Hloop.
  cbv zeta in Hloop.
  assert (Hr : range (Z.of_nat (Z.to_nat iters)) = range iters).
  { unfold range. now rewrite Nat2Z.id. }
  rewrite Hr in Hloop.
  destruct (for_each (range iters) _ o (set_env e s)) as [[o' s2] t2].
  inversion H; subst s' t. exact Hloop.
Qed.

(** Every call of [env.step] that [step_env] makes passes no argument, and
    [step_env] appends one transition per step. *)
Lemma step_env_passes_no_action (observation : Obs) (num_steps : Z) (s : Agent) :
  let '(_, _, t) := step_env observation num_steps s in
  Trace.step_args t = repeat None (Z.to_nat num_steps) /\
  Trace.count_adds t = Z.to_nat num_steps.
Proof.
  pose proof (step_env_collects observation num_steps s) as H.
  destruct (step_env observation num_steps s) as [[o s'] t].
  destruct H as ([_ Ha] & _ & Hargs & _). split; assumption.
Qed.

(** C9.  Loading a checkpoint that is not there.  When no file exists at the
    path with the suffix [.pt] appended, [load] returns without raising and
    leaves the agent, its model included, exactly as it was; all it does is
    log, when [verbose], the two informational messages. *)
Theorem load_missing_checkpoint (fs : FileSystem) (path : string) (s : Agent) :
  fs (path ++ ".pt")%string = None ->
  load fs path s =
    Ok (s,
        if verbose s then
          [LoggerInfo (Text ("Loading weights from " ++ (path ++ ".pt"))%string);
           LoggerInfo
             (Text "File not found, assuming no model dict was to be loaded")]
        else []).
Proof.
  intros Hfs. unfold load, T_load. rewrite Hfs.
  destruct (verbose s); reflexivity.
Qed.

End AgentProperties.

Section AgentExamples.
Import Agent AgentSpec.
#[local] Existing Instance Example2.collaborators.

(** C1.  The chosen action is not what the environment executes.  The agent
    explores, the explorer chooses action [1], and a step given action [1]
    at time [0] would earn reward [10]; [step_env] calls [env.step] without
    any argument, so the transition it appends pairs action [1] with the
    reward [0] of a step that was given no action. *)
Theorem step_env_drops_chosen_action :
  let s := Example2.agent false true in
  fst (fst (fst (fst (env_step (Some 1%Z) (env s))))) = inject_Z 10 /\
  snd (step_env 0%Z 1 s) =
    [ExplorerCall 0%Z;
     EnvStep None;
     BufferAdd {| observation := 0%Z; action := 1%Z; reward := inject_Z 0;
                  next_observation := 1%Z; done := false |}].
Proof. split; reflexivity. Qed.

Lemma fit_on_policy_schedule_witness :
  exists s' t,
    fit Example2._fit 9 2 1 1 (Example2.agent true false) = Ok (s', t) /\
    Z.of_nat (Trace.count_fits t) = (9 / buffer_size (Example2.agent true false))%Z /\
    length (Trace.adds_per_fit 0 t) = Trace.count_fits t /\
    forall k, (0 < k < Trace.count_fits t)%nat ->
      Z.of_nat (nth k (Trace.adds_per_fit 0 t) 0%nat) =
        buffer_size (Example2.agent true false).
Proof.
  apply (@fit_on_policy_schedule Example2.collaborators Example2._fit 9 2 1 1
           (Example2.agent true false)).
  - intros bs ae ce s. split; reflexivity.
  - reflexivity.
  - reflexivity.
  - lia.
Defined.

(** The scenario of a buffer of capacity 4 with [fit(num_steps=4,
    batch_size=2)]: [2 + (4 - 1)] transitions. *)
Lemma fit_off_policy_schedule_witness :
  exists s' t,
    fit Example2._fit 4 2 1 1 (Example2.agent false true) = Ok (s', t) /\
    Z.of_nat (Trace.count_fits t) = 4%Z /\
    length (Trace.adds_per_fit 0 t) = Trace.count_fits t /\
    Z.of_nat (nth 0 (Trace.adds_per_fit 0 t) 0%nat) = 2%Z /\
    (forall k, (0 < k < Trace.count_fits t)%nat ->
       nth k (Trace.adds_per_fit 0 t) 0%nat = 1%nat) /\
    Z.of_nat (Trace.count_adds t) = (2 + (4 - 1))%Z.
Proof.
  apply (@fit_off_policy_schedule Example2.collaborators Example2._fit 4 2 1 1
           (Example2.agent false true)).
  - intros bs ae ce s. split; reflexivity.
  - reflexivity.
  - lia.
  - lia.
Defined.

(** The same scenario: the rewards collected are [0; 1], then [2], [0] and
    [1], while [_fit] reports a reward of [42] every time. *)
Lemma fit_logs_mean_of_last_rewards_witness :
  exists s' t,
    fit Example2._fit 4 2 1 1 (Example2.agent false true) = Ok (s', t) /\
    Trace.reward_scalars t =
      [(0%Z, Some (fin (1 # 2))); (1%Z, Some (fin (3 # 2)));
       (2%Z, Some (fin (2 # 2))); (3%Z, Some (fin (1 # 2)))] /\
    Trace.logged_rewards t =
      [(0%Z, fin (1 # 2)); (1%Z, fin (3 # 2));
       (2%Z, fin (2 # 2)); (3%Z, fin (1 # 2))].
Proof.
  destruct (fit Example2._fit 4 2 1 1 (Example2.agent false true))
    as [[s' t]|e] eqn:E.
  - exists s', t. split; [reflexivity|].
    pose proof (@fit_logs_mean_of_last_rewards Example2.collaborators
                  Example2._fit 4 2 1 1 (Example2.agent false true) s' t E)
      as H.
    vm_compute in H. exact H.
  - vm_compute in E. discriminate E.
Defined.

Lemma load_missing_checkpoint_witness :
  load Example2.empty_fs "weights" (Example2.agent false true) =
    Ok (Example2.agent false true,
        [LoggerInfo (Text "Loading weights from weights.pt");
         LoggerInfo
           (Text "File not found, assuming no model dict was to be loaded")]).
Proof.
  apply (@load_missing_checkpoint Example2.collaborators Example2.empty_fs
           "weights" (Example2.agent false true)).
  reflexivity.
Defined.

End AgentExamples.

(** * Properties of the critic updaters *)

Section CriticProperties.
Import Critics CriticSpec.
Context {L : TorchLib}.
Local Open Scope torch_scope.

Lemma bind_ok (A B : Type) (m : M A) (f : A -> M B) s a s' :
  m s = (Ok a, s') -> bind m f s = f a s'.
Proof. unfold bind. now intros ->. Qed.

Lemma bind_raise (A B : Type) (m : M A) (f : A -> M B) s e s' :
  m s = (Raise e, s') -> bind m f s = (Raise e, s').
Proof. unfold bind. now intros ->. Qed.

Lemma get_optimizer_run o opt s :
  nth_error (optimizers s) o = Some opt -> get_optimizer o s = (Ok opt, s).
Proof. unfold get_optimizer, bind, get, ret. now intros ->. Qed.

Lemma list_of_run it s : list_of it s = (Ok (yields it s), consume it s).
Proof. reflexivity. Qed.

Lemma parameters_run c s :
  parameters c s =
    (Ok (FromGenerator (length (generators s))),
     set_generators (generators s ++ [c_parameters c]) s).
Proof. reflexivity. Qed.

Lemma zero_grad_run o opt s :
  nth_error (optimizers s) o = Some opt ->
  zero_grad o s =
    (Ok tt, add_call (ZeroGrad o) (set_grad (zeroed (o_params opt) (grad s)) s)).
Proof.
  intros H. unfold zero_grad. erewrite bind_ok by (apply get_optimizer_run; exact H).
  reflexivity.
Qed.

Lemma backward_run l s :
  backward l s =
    (Ok tt, add_call (Backward l) (set_grad (accumulated l (grad s)) s)).
Proof. reflexivity. Qed.

Lemma clip_grad_norm_run it max_norm s :
  clip_grad_norm_ it max_norm s =
    (Ok tt,
     add_call (ClipGradNorm (yields it s) max_norm)
       (set_grad (clipped (yields it s) max_norm (grad s)) (consume it s))).
Proof. destruct it; reflexivity. Qed.

Lemma step_run o opt s :
  nth_error (optimizers s) o = Some opt ->
  step o s =
    (Ok tt,
     add_call (Step o)
       (set_optimizers
          (replace_nth o (stepped opt (weight s) (grad s)) (optimizers s))
          (set_weight (step_weights opt (weight s) (grad s)) s))).
Proof.
  intros H. unfold step. erewrite bind_ok by (apply get_optimizer_run; exact H).
  reflexivity.
Qed.

Lemma optimizers_before_step o opt l it s :
  optimizers (before_step o opt l it s) = optimizers s.
Proof.
  unfold before_step. destruct (Qgt_bool _ _); [destruct it|]; reflexivity.
Qed.

Lemma run_optimizer_run o opt l it s :
  nth_error (optimizers s) o = Some opt ->
  BaseCriticUpdater.run_optimizer o l it s =
    let s3 := before_step o opt l it s in
    (Ok tt,
     add_call (Step o)
       (set_optimizers
          (replace_nth o (stepped opt (weight s3) (grad s3)) (optimizers s3))
          (set_weight (step_weights opt (weight s3) (grad s3)) s3))).
Proof.
  intros H. unfold BaseCriticUpdater.run_optimizer.
  erewrite bind_ok by (apply zero_grad_run; exact H).
  erewrite bind_ok by apply backward_run.
  unfold attr. cbn [bind get ret]. cbn [self add_call set_grad].
  cbv zeta. unfold before_step.
  destruct (Qgt_bool (max_grad (base (self s))) 0).
  - erewrite bind_ok by apply clip_grad_norm_run.
    rewrite (@step_run o opt); [destruct it; reflexivity|].
    destruct it; exact H.
  - unfold bind at 1. unfold ret at 1.
    rewrite (@step_run o opt); [reflexivity | exact H].
Qed.

Lemma nth_error_replace_nth (A : Type) (l : list A) n x y :
  nth_error l n = Some y -> nth_error (replace_nth n x l) n = Some x.
Proof.
  revert n. induction l as [|a l IH]; intros [|n] H; try discriminate; cbn.
  - reflexivity.
  - apply IH. exact H.
Qed.

Lemma nth_error_snoc (A : Type) (l : list A) x :
  nth_error (l ++ [x]) (length l) = Some x.
Proof. rewrite nth_error_app2, Nat.sub_diag by lia. reflexivity. Qed.

Lemma replace_nth_snoc (A : Type) (l : list A) x y :
  replace_nth (length l) y (l ++ [x]) = l ++ [y].
Proof. induction l as [|a l IH]; cbn; [reflexivity | now rewrite IH]. Qed.

Lemma mem_true_zeroed ps g p : mem p ps = true -> zeroed ps g p = 0.
Proof. unfold zeroed. now intros ->. Qed.

Lemma mem_In p ps : In p ps -> mem p ps = true.
Proof.
  intros H. unfold mem. apply existsb_exists. exists p.
  split; [exact H | apply Nat.eqb_refl].
Qed.

Lemma clipped_on_params ps max_norm g :
  map (clipped ps max_norm g) ps =
  map (Qmult (clip_coef max_norm (map g ps))) (map g ps).
Proof.
  rewrite map_map. apply map_ext_in. intros p Hp.
  unfold clipped. now rewrite (mem_In _ _ Hp).
Qed.

Lemma positive_clips (x : Q) : Qgt_bool x 0 = true -> 0 < x.
Proof.
  unfold Qgt_bool. intros H. apply negb_true_iff in H.
  apply Qnot_le_lt. intros Hle. apply Qle_bool_iff in Hle. congruence.
Qed.

Lemma Qlt_bool_true (x y : Q) : Qlt_bool x y = true -> x < y.
Proof.
  unfold Qlt_bool, Qgt_bool. intros H. apply negb_true_iff in H.
  apply Qnot_le_lt. intros Hle. apply Qle_bool_iff in Hle. congruence.
Qed.

Lemma Qlt_bool_false (x y : Q) : Qlt_bool x y = false -> y <= x.
Proof.
  unfold Qlt_bool, Qgt_bool. intros H. apply negb_false_iff in H.
  now apply Qle_bool_iff.
Qed.

Lemma square_le (a b : Q) : 0 <= a -> a <= b -> a * a <= b * b.
Proof. intros Ha Hab. nra. Qed.

(** The factor of the clipping is in [0, 1]; it brings a norm [n] within
    [max_norm], and is [1] when [n + 1e-6] is within [max_norm] already. *)
Lemma clip_coef_bounds max_norm gs :
  0 < max_norm -> 0 <= norm gs ->
  0 <= clip_coef max_norm gs /\
  clip_coef max_norm gs * norm gs <= max_norm /\
  (norm gs + (1 # 1000000) <= max_norm -> clip_coef max_norm gs = 1).
Proof.
  intros Hmax Hn. unfold clip_coef. cbv zeta.
  set (n := norm gs) in *. set (d := n + (1 # 1000000)).
  assert (Hd : 0 < d).
  { unfold d. apply Qlt_le_trans with (0 + (1 # 1000000)); [reflexivity|].
    apply Qplus_le_l. exact Hn. }
  assert (Hnd : n <= d).
  { unfold d. rewrite <- (Qplus_0_r n) at 1. apply Qplus_le_r. discriminate. }
  assert (Hd0 : ~ d == 0).
  { intros E. rewrite E in Hd. discriminate Hd. }
  assert (Hc : 0 <= max_norm / d).
  { apply Qle_shift_div_l; [exact Hd|]. rewrite Qmult_0_l.
    apply Qlt_le_weak, Hmax. }
  assert (Hcd : max_norm / d * d == max_norm).
  { rewrite Qmult_comm. apply Qmult_div_r. exact Hd0. }
  destruct (Qlt_bool (max_norm / d) 1) eqn:E.
  - split; [exact Hc|]. split.
    + rewrite <- Hcd at 2. rewrite !(Qmult_comm (max_norm / d)).
      apply Qmult_le_compat_r; assumption.
    + intros Hle. apply Qlt_bool_true in E. exfalso.
      apply (Qlt_not_le _ _ E). apply Qle_shift_div_l; [exact Hd|].
      rewrite Qmult_1_l. exact Hle.
  - split; [discriminate|]. split; [|reflexivity].
    apply Qlt_bool_false in E. rewrite Qmult_1_l.
    apply Qle_trans with d; [exact Hnd|].
    rewrite <- Hcd. rewrite <- (Qmult_1_l d) at 1.
    apply Qmult_le_compat_r; [exact E | apply Qlt_le_weak, Hd].
Qed.

(** C4.  The order of [run_optimizer], and what the clipping does.  On a
    live optimizer, [run_optimizer] returns and makes exactly these backend
    calls, in this order: [zero_grad], [backward] of the loss, then
    [clip_grad_norm_] over the given parameters with threshold [max_grad]
    if and only if [max_grad > 0], then one [step].  The step works from
    the gradients so obtained.  With [max_grad > 0] the norm of the
    gradients of the given parameters (those the iterable yields when the
    call begins) is at most [max_grad] after the call, and so is their
    Euclidean norm: the sum of their squares is at most the square of
    [max_grad]; gradients whose norm was within [max_grad - 1e-6] already
    are not rescaled.  For the optimizer's parameters nothing of the
    gradients accumulated before the call is left in them: without clipping
    they are the derivatives of the loss, and a second call with the same
    inputs ends with those same gradients again.  The norm the backend
    takes is assumed never negative, to scale with the gradients and not to
    be below the Euclidean norm. *)
Theorem run_optimizer_order (o : nat) (opt : Optimizer) (l : Scalar)
  (it : Iterable) (s : State) :
  norm_laws ->
  nth_error (optimizers s) o = Some opt ->
  let max_norm := max_grad (base (self s)) in
  let clip := Qgt_bool max_norm 0 in
  let g1 := accumulated l (zeroed (o_params opt) (grad s)) in
  let g2 := if clip then clipped (yields it s) max_norm g1 else g1 in
  exists s',
    BaseCriticUpdater.run_optimizer o l it s = (Ok tt, s') /\
    calls s' =
      calls s ++ [ZeroGrad o; Backward l]
              ++ (if clip then [ClipGradNorm (yields it s) max_norm] else [])
              ++ [Step o] /\
    (forall p, grad s' p = g2 p) /\
    (clip = true -> norm (map (grad s') (yields it s)) <= max_norm) /\
    (clip = true ->
     sum_of_squares (map (grad s') (yields it s)) <= max_norm * max_norm) /\
    (clip = true ->
     norm (map g1 (yields it s)) + (1 # 1000000) <= max_norm ->
     forall p, grad s' p == g1 p) /\
    (forall p, weight s' p = step_weights opt (weight s) g2 p) /\
    nth_error (optimizers s') o = Some (stepped opt (weight s) g2) /\
    self s' = self s /\
    (forall p, mem p (o_params opt) = true -> g1 p == ditem l p) /\
    (clip = false ->
     forall p, mem p (o_params opt) = true -> grad s' p == ditem l p) /\
    exists s'',
      BaseCriticUpdater.run_optimizer o l it s' = (Ok tt, s'') /\
      (forall p, mem p (o_params opt) = true ->
         accumulated l (zeroed (o_params opt) (grad s')) p == ditem l p) /\
      (clip = false ->
       forall p, mem p (o_params opt) = true -> grad s'' p == grad s' p).
Proof.
  intros (Hnonneg & Hscale & Hdom) H max_norm clip g1 g2.
  assert (Hg1 : forall g p, mem p (o_params opt) = true ->
                  accumulated l (zeroed (o_params opt) g) p == ditem l p).
  { intros g p Hp. unfold accumulated. rewrite mem_true_zeroed by exact Hp.
    apply Qplus_0_l. }
  rewrite (@run_optimizer_run o opt l it s H). cbv zeta.
  set (s3 := before_step o opt l it s).
  assert (Hgrad : forall p, grad s3 p = g2 p).
  { intros p. unfold s3, before_step, g2, clip, max_norm, g1.
    destruct (Qgt_bool _ _); [destruct it|]; reflexivity. }
  assert (Hweight : weight s3 = weight s).
  { unfold s3, before_step. destruct (Qgt_bool _ _); [destruct it|]; reflexivity. }
  assert (Hself : self s3 = self s).
  { unfold s3, before_step. destruct (Qgt_bool _ _); [destruct it|]; reflexivity. }
  assert (Hopts : optimizers s3 = optimizers s) by apply optimizers_before_step.
  assert (Hcalls : calls s3 =
            calls s ++ [ZeroGrad o; Backward l]
              ++ (if clip then [ClipGradNorm (yields it s) max_norm] else [])).
  { unfold s3, before_step, clip, max_norm.
    destruct (Qgt_bool _ _); [destruct it|]; cbn;
      rewrite <- ?app_assoc; reflexivity. }
  assert (Hmap : forall ps,
            map (fun p => (weight s3 p, grad s3 p)) ps =
            map (fun p => (weight s p, g2 p)) ps).
  { intros ps. apply map_ext. intros p. now rewrite Hweight, Hgrad. }
  assert (Hstepped : stepped opt (weight s3) (grad s3) = stepped opt (weight s) g2).
  { unfold stepped. rewrite Hmap. reflexivity. }
  eexists. split; [reflexivity|].
  cbn [calls grad weight optimizers self add_call set_optimizers set_weight].
  split; [rewrite Hcalls, <- !app_assoc; reflexivity|].
  split; [exact Hgrad|].
  assert (Hnorm : clip = true ->
            norm (map (grad s3) (yields it s)) <= max_norm).
  { intros Hc.
    destruct (@clip_coef_bounds max_norm (map g1 (yields it s)))
      as (Hc0 & Hbound & _); [apply positive_clips, Hc | apply Hnonneg |].
    rewrite (map_ext _ _ Hgrad). unfold g2. rewrite Hc.
    rewrite clipped_on_params, Hscale by exact Hc0. exact Hbound. }
  split; [exact Hnorm|].
  split.
  { intros Hc.
    apply Qle_trans with (norm (map (grad s3) (yields it s)) *
                          norm (map (grad s3) (yields it s))); [apply Hdom|].
    apply square_le; [apply Hnonneg | apply Hnorm, Hc]. }
  split.
  { intros Hc Hwithin p.
    destruct (@clip_coef_bounds max_norm (map g1 (yields it s)))
      as (_ & _ & Hone); [apply positive_clips, Hc | apply Hnonneg |].
    rewrite Hgrad. unfold g2. rewrite Hc. unfold clipped.
    destruct (mem p (yields it s)); [|reflexivity].
    rewrite (Hone Hwithin). apply Qmult_1_l. }
  split.
  { intros p. unfold step_weights. rewrite Hmap, Hweight. reflexivity. }
  split.
  { rewrite Hopts, Hstepped. eapply nth_error_replace_nth. exact H. }
  split; [exact Hself|].
  split; [apply Hg1|].
  split.
  { intros Hc p Hp. rewrite Hgrad. unfold g2. rewrite Hc. apply Hg1, Hp. }
  set (s' := add_call (Step o) _).
  assert (H' : nth_error (optimizers s') o = Some (stepped opt (weight s) g2)).
  { unfold s'. cbn. rewrite Hopts, Hstepped.
    eapply nth_error_replace_nth. exact H. }
  rewrite (@run_optimizer_run o _ l it s' H'). cbv zeta.
  eexists. split; [reflexivity|].
  split; [apply Hg1|].
  intros Hc p Hp.
  cbn [calls grad weight optimizers self add_call set_optimizers set_weight].
  assert (Hself' : self s' = self s) by (unfold s'; cbn; exact Hself).
  unfold before_step. rewrite Hself'. fold max_norm. fold clip. rewrite Hc.
  cbn [grad add_call set_grad stepped o_params].
  rewrite Hg1 by exact Hp.
  unfold s'. cbn [grad add_call set_optimizers set_weight].
  rewrite Hgrad. unfold g2. rewrite Hc. symmetry. apply Hg1, Hp.
Qed.

Lemma nth_snoc (A : Type) (l : list A) x d : nth (length l) (l ++ [x]) d = x.
Proof. induction l as [|a l IH]; cbn; [reflexivity | exact IH]. Qed.

Lemma extend_all_run cs params s :
  exists gs,
    BaseCriticUpdater.extend_all cs params s =
      (Ok (params ++ flat_map c_parameters cs), set_generators gs s).
Proof.
  revert params s. induction cs as [|c cs IH]; intros params s.
  - exists (generators s). cbn. rewrite app_nil_r. destruct s; reflexivity.
  - cbn [BaseCriticUpdater.extend_all flat_map].
    erewrite bind_ok by apply parameters_run.
    erewrite bind_ok by apply list_of_run.
    cbn [yields generators set_generators]. rewrite nth_snoc.
    destruct (IH (params ++ c_parameters c)
                 (consume (FromGenerator (length (generators s)))
                    (set_generators (generators s ++ [c_parameters c]) s)))
      as [gs Hgs].
    exists gs. rewrite Hgs, <- app_assoc. reflexivity.
Qed.

(** C5.  Which parameters an updater optimizes.  [_get_model_parameters]
    always returns.  On a single critic it hands back that critic's own
    [parameters()], which yield exactly the critic's parameters; on an
    actor-critic it returns the list made of the parameters of every critic
    in [model.critics], in order: a parameter is in the list if and only if
    it is a parameter of one of these critics.  Nothing but the generators
    is touched. *)
Theorem get_model_parameters_selects (model : Model) (s : State) :
  exists it gs,
    BaseCriticUpdater._get_model_parameters model s =
      (Ok it, set_generators gs s) /\
    match model with
    | IsCritic c =>
        yields it (set_generators gs s) = c_parameters c
    | IsActorCritic ac =>
        it = FromList (flat_map c_parameters (critics ac)) /\
        forall p,
          In p (yields it (set_generators gs s)) <->
          exists c, In c (critics ac) /\ In p (c_parameters c)
    end.
Proof.
  destruct model as [c|ac]; cbn [BaseCriticUpdater._get_model_parameters].
  - eexists _, _. rewrite parameters_run. split; [reflexivity|].
    cbn. apply nth_snoc.
  - destruct (extend_all_run (critics ac) [] s) as [gs Hgs].
    exists (FromList (flat_map c_parameters (critics ac))), gs.
    erewrite bind_ok by exact Hgs. split; [reflexivity|].
    split; [reflexivity|]. intros p. cbn. apply in_flat_map.
Qed.

Lemma get_model_parameters_run model s :
  exists it gs,
    BaseCriticUpdater._get_model_parameters model s =
      (Ok it, set_generators gs s).
Proof.
  destruct model as [c|ac]; cbn [BaseCriticUpdater._get_model_parameters].
  - eexists _, _. apply parameters_run.
  - destruct (extend_all_run (critics ac) [] s) as [gs Hgs].
    eexists _, gs. erewrite bind_ok by exact Hgs. reflexivity.
Qed.

Lemma gather_row_ok row idx :
  Forall (fun k => (0 <= k < Z.of_nat (length row))%Z) idx ->
  exists r,
    gather_row row idx = Ok r /\
    length r = length idx /\
    forall j k, nth_error idx j = Some k ->
      nth_error r j = Some (nth (Z.to_nat k) row 0).
Proof.
  induction 1 as [|k idx Hk _ IH].
  - exists []. split; [reflexivity|]. split; [reflexivity|].
    intros [|j] k H; discriminate.
  - destruct IH as (r & Hr & Hlen & Hnth). cbn [gather_row].
    replace ((0 <=? k)%Z && (k <? Z.of_nat (length row))%Z) with true
      by (symmetry; apply andb_true_iff; split; [apply Z.leb_le | apply Z.ltb_lt]; lia).
    rewrite Hr. eexists. split; [reflexivity|]. split; [cbn; now rewrite Hlen|].
    intros [|j] k' H; cbn in *.
    + now inversion H.
    + now apply Hnth.
Qed.

Lemma gather_rows_ok (n : nat) input index :
  (length index <= length input)%nat ->
  Forall (fun row => length row = n) input ->
  Forall (Forall (fun k => (0 <= k < Z.of_nat n)%Z)) index ->
  exists g,
    gather_rows input index = Ok g /\
    length g = length index /\
    forall i row j k,
      nth_error index i = Some row -> nth_error row j = Some k ->
      nth_error (nth i g []) j = Some (nth (Z.to_nat k) (nth i input []) 0).
Proof.
  intros Hlen Hin Hidx. revert input Hlen Hin.
  induction Hidx as [|idx index Hk _ IH]; intros input Hlen Hin.
  - exists []. split; [reflexivity|]. split; [reflexivity|].
    intros [|i] row j k H; discriminate.
  - destruct input as [|row input]; [cbn in Hlen; lia|].
    inversion Hin as [|? ? Hrow Hin']; subst.
    destruct (@gather_row_ok row idx) as (r & Hr & Hrl & Hrn).
    { exact Hk. }
    destruct (IH input) as (g & Hg & Hgl & Hgn); [cbn in Hlen; lia | exact Hin' |].
    cbn [gather_rows]. rewrite Hr, Hg. eexists. split; [reflexivity|].
    split; [cbn; now rewrite Hgl|].
    intros [|i] row' j k H1 H2; cbn in *.
    + inversion H1; subst. now apply Hrn.
    + eapply Hgn; eassumption.
Qed.

Lemma attr_run (A : Type) (f : Regression -> A) s :
  attr f s = (Ok (f (self s)), s).
Proof. reflexivity. Qed.

Lemma get_run s : get s = (Ok s, s).
Proof. reflexivity. Qed.

Lemma lr_accepted (rate : Q) : 0 <= rate -> Qlt_bool rate 0 = false.
Proof.
  intros H. unfold Qlt_bool, Qgt_bool. apply negb_false_iff.
  now apply Qle_bool_iff.
Qed.

Lemma lr_refused (rate : Q) : ~ 0 <= rate -> Qlt_bool rate 0 = true.
Proof.
  intros H. unfold Qlt_bool, Qgt_bool. apply negb_true_iff.
  destruct (Qle_bool 0 rate) eqn:E; [|reflexivity].
  apply Qle_bool_iff in E. contradiction.
Qed.

(** The constructor on a learning rate and parameters it accepts. *)
Lemma new_optimizer_run cls it rate s :
  0 <= rate -> yields it s <> [] ->
  new_optimizer cls it rate s =
    (Ok (length (optimizers s)),
     add_call (NewOptimizer (length (optimizers s)) cls (yields it s) rate)
       (set_optimizers
          (optimizers s ++ [fresh_optimizer cls (yields it s) rate])
          (consume it s))).
Proof.
  intros Hrate Hps. unfold new_optimizer. rewrite (lr_accepted Hrate).
  erewrite bind_ok by apply list_of_run.
  destruct (yields it s) as [|p ps]; [contradiction|].
  destruct it; reflexivity.
Qed.

(** The constructor on what it refuses: it raises, and has built nothing. *)
Lemma new_optimizer_refused cls it rate s :
  ~ (0 <= rate /\ yields it s <> []) ->
  exists msg s',
    new_optimizer cls it rate s = (Raise (ValueError msg), s') /\
    self s' = self s /\ weight s' = weight s /\ grad s' = grad s /\
    optimizers s' = optimizers s /\ calls s' = calls s.
Proof.
  intros Hn. unfold new_optimizer.
  destruct (Qlt_bool rate 0) eqn:E.
  - eexists _, s. repeat split.
  - apply Qlt_bool_false in E.
    erewrite bind_ok by apply list_of_run.
    destruct (yields it s) as [|p ps] eqn:Ey.
    + eexists _, _. split; [reflexivity|]. destruct it; repeat split.
    + exfalso. apply Hn. split; [exact E | discriminate].
Qed.

Lemma T_gather_run t index v s :
  gather_rows (values t) index = Ok v ->
  T_gather t index s =
    (Ok {| values := v;
           dvalues := fun p => or_empty (gather_rows (dvalues t p) index) |}, s).
Proof. unfold T_gather, lift, bind, ret. now intros ->. Qed.

Lemma T_gather_raise t index e s :
  gather_rows (values t) index = Raise e ->
  T_gather t index s = (Raise e, s).
Proof. unfold T_gather, lift, bind, ret. now intros ->. Qed.

(** What [_get_model_parameters] hands to the optimizer's constructor. *)
Lemma get_model_parameters_params model s :
  exists it gs,
    BaseCriticUpdater._get_model_parameters model s =
      (Ok it, set_generators gs s) /\
    yields it (set_generators gs s) = critic_params model.
Proof.
  destruct model as [c|ac]; cbn [BaseCriticUpdater._get_model_parameters].
  - eexists _, _. rewrite parameters_run. split; [reflexivity|].
    cbn. apply nth_snoc.
  - destruct (extend_all_run (critics ac) [] s) as [gs Hgs].
    exists (FromList (flat_map c_parameters (critics ac))), gs.
    erewrite bind_ok by exact Hgs. split; reflexivity.
Qed.

Lemma constructor_accepts_dec model s :
  constructor_accepts model s \/ ~ constructor_accepts model s.
Proof.
  unfold constructor_accepts.
  destruct (Qlt_le_dec (lr (base (self s))) 0) as [Hlt|Hle].
  - right. intros [H _]. exact (Qlt_not_le _ _ Hlt H).
  - destruct (critic_params model) as [|p ps].
    + right. intros [_ H]. now apply H.
    + left. split; [exact Hle | discriminate].
Qed.

(** The state after [_get_model_parameters] and the construction of the
    optimizer, from which [run_optimizer] is called. *)
Lemma optimizer_constructed model s :
  constructor_accepts model s ->
  let cls := optimizer_class (base (self s)) in
  let rate := lr (base (self s)) in
  exists it gs s2,
    BaseCriticUpdater._get_model_parameters model s =
      (Ok it, set_generators gs s) /\
    new_optimizer cls it rate (set_generators gs s) =
      (Ok (length (optimizers s)), s2) /\
    self s2 = self s /\ weight s2 = weight s /\
    optimizers s2 =
      optimizers s ++ [fresh_optimizer cls (critic_params model) rate] /\
    calls s2 =
      calls s ++ [NewOptimizer (length (optimizers s)) cls
                    (critic_params model) rate].
Proof.
  intros [Hrate Hps]. cbv zeta.
  destruct (get_model_parameters_params model s) as (it & gs & Hit & Hy).
  exists it, gs. rewrite new_optimizer_run; [|exact Hrate | now rewrite Hy].
  eexists. split; [exact Hit|]. split; [reflexivity|]. rewrite Hy.
  destruct it; repeat split.
Qed.

(** The same when the constructor refuses. *)
Lemma construction_refused model s :
  ~ constructor_accepts model s ->
  let cls := optimizer_class (base (self s)) in
  let rate := lr (base (self s)) in
  exists it gs msg s2,
    BaseCriticUpdater._get_model_parameters model s =
      (Ok it, set_generators gs s) /\
    new_optimizer cls it rate (set_generators gs s) =
      (Raise (ValueError msg), s2) /\
    self s2 = self s /\ weight s2 = weight s /\ grad s2 = grad s /\
    optimizers s2 = optimizers s /\ calls s2 = calls s.
Proof.
  intros Hn. cbv zeta.
  destruct (get_model_parameters_params model s) as (it & gs & Hit & Hy).
  destruct (@new_optimizer_refused (optimizer_class (base (self s))) it
              (lr (base (self s))) (set_generators gs s))
    as (msg & s2 & Hnew & Hfacts).
  { rewrite Hy. exact Hn. }
  exists it, gs, msg, s2. split; [exact Hit|]. split; [exact Hnew|].
  exact Hfacts.
Qed.

(** The first lines of each [__call__]: the parameters, then the
    optimizer. *)
Ltac enter_call Hit :=
  erewrite bind_ok by exact Hit;
  erewrite bind_ok by apply attr_run;
  erewrite bind_ok by apply attr_run;
  cbn [self set_generators].

(** Each [__call__] when the constructor refuses. *)
Lemma value_call_refused model observations returns s :
  ~ constructor_accepts model s ->
  built_none s (ValueRegression.__call__ model observations returns s).
Proof.
  intros Hn.
  destruct (construction_refused Hn) as (it & gs & msg & s2 & Hit & Hnew & Hf).
  unfold ValueRegression.__call__. enter_call Hit.
  erewrite bind_raise by exact Hnew.
  split; [exists msg; reflexivity | exact Hf].
Qed.

Lemma continuous_call_refused model observations actions returns s :
  ~ constructor_accepts model s ->
  built_none s
    (ContinuousQRegression.__call__ model observations actions returns s).
Proof.
  intros Hn.
  destruct (construction_refused Hn) as (it & gs & msg & s2 & Hit & Hnew & Hf).
  unfold ContinuousQRegression.__call__. enter_call Hit.
  erewrite bind_raise by exact Hnew.
  split; [exists msg; reflexivity | exact Hf].
Qed.

Lemma discrete_call_refused model observations returns actions_index s :
  ~ constructor_accepts model s ->
  built_none s
    (DiscreteQRegression.__call__ model observations returns actions_index s).
Proof.
  intros Hn.
  destruct (construction_refused Hn) as (it & gs & msg & s2 & Hit & Hnew & Hf).
  unfold DiscreteQRegression.__call__. enter_call Hit.
  erewrite bind_raise by exact Hnew.
  split; [exists msg; reflexivity | exact Hf].
Qed.

(** [run_optimizer] on the optimizer just constructed. *)
Lemma run_fresh_optimizer l it s s2 ps :
  let cls := optimizer_class (base (self s)) in
  let rate := lr (base (self s)) in
  let o := length (optimizers s) in
  self s2 = self s ->
  optimizers s2 = optimizers s ++ [fresh_optimizer cls ps rate] ->
  calls s2 = calls s ++ [NewOptimizer o cls ps rate] ->
  exists s',
    BaseCriticUpdater.run_optimizer o l it s2 = (Ok tt, s') /\
    In (Backward l) (calls s') /\
    one_fresh_optimizer s s'.
Proof.
  intros cls rate o Hself Hopts Hcalls.
  assert (H : nth_error (optimizers s2) o = Some (fresh_optimizer cls ps rate)).
  { rewrite Hopts. apply nth_error_snoc. }
  rewrite (@run_optimizer_run o _ l it s2 H). cbv zeta.
  set (s3 := before_step o (fresh_optimizer cls ps rate) l it s2).
  assert (Hself3 : self s3 = self s2).
  { unfold s3, before_step. destruct (Qgt_bool _ _); [destruct it|]; reflexivity. }
  assert (Hopts3 : optimizers s3 = optimizers s2) by apply optimizers_before_step.
  assert (Hcalls3 : exists mid,
            calls s3 = calls s2 ++ ZeroGrad o :: Backward l :: mid /\
            Forall (uses_only o) mid).
  { unfold s3, before_step.
    destruct (Qgt_bool _ _); [destruct it|]; cbn; eexists;
      (split; [rewrite <- ?app_assoc; reflexivity|]);
      repeat constructor. }
  destruct Hcalls3 as (mid & Hc3 & Hmid).
  eexists. split; [reflexivity|].
  unfold one_fresh_optimizer.
  cbn [calls self optimizers add_call set_optimizers set_weight].
  split.
  { rewrite Hc3. apply in_or_app. left. apply in_or_app. right.
    right. left. reflexivity. }
  split; [congruence|].
  exists ps, (o_state (stepped (fresh_optimizer cls ps rate) (weight s3) (grad s3))),
    (ZeroGrad o :: Backward l :: mid ++ [Step o]).
  split; [|split; [|split]].
  - rewrite Hopts3, Hopts. unfold o. rewrite replace_nth_snoc. reflexivity.
  - right. eexists. reflexivity.
  - rewrite Hc3, Hcalls, <- !app_assoc. reflexivity.
  - repeat constructor. apply Forall_app. split; [exact Hmid | repeat constructor].
Qed.

(** The cast of a float that holds an integer gives that integer. *)
Lemma Qtrunc_inject_Z (a : Q) (k : Z) : a == inject_Z k -> Qtrunc a = k.
Proof.
  destruct a as [n d]. unfold Qeq, Qtrunc, inject_Z. cbn [Qnum Qden].
  intros H. rewrite Z.mul_1_r in H. rewrite H. now apply Z.quot_mul.
Qed.

Lemma long_nth_error (m : Matrix) i row j a :
  nth_error m i = Some row -> nth_error row j = Some a ->
  exists idx,
    nth_error (long m) i = Some idx /\ nth_error idx j = Some (Qtrunc a).
Proof.
  intros Hi Hj. exists (map Qtrunc row). unfold long.
  split; now apply map_nth_error.
Qed.

(** C6.  Discrete Q regression gathers the Q-value of the action taken.
    Let the model answer Q-values of shape [batch, num_actions]; let the
    action indices given to the call have one row per sample, let
    [to_torch] give a tensor of these same values, and let each index once
    cast with [long()] lie in [0, num_actions); let the optimizer's
    constructor accept the learning rate and the critics' parameters.  Then
    the call returns; the tensor [gathered] handed to the loss class holds,
    at row [i] and column [j], the Q-value of row [i] at the cast of the
    action index the caller gave at [i], [j]: for an action index that
    holds the integer [k], the Q-value [Q[i][k]].  The loss that is
    backpropagated is [loss_coeff * loss_class(gathered, returns)], and its
    value is the loss reported. *)
Theorem discrete_q_regression_gathers (model : Model)
  (observations returns actions_index : Matrix) (s : State)
  (num_actions : nat) :
  let q := model_output model (weight s) [observations] in
  to_torch actions_index = actions_index ->
  constructor_accepts model s ->
  length actions_index = length (values q) ->
  Forall (fun row => length row = num_actions) (values q) ->
  Forall (Forall (fun a => (0 <= Qtrunc a < Z.of_nat num_actions)%Z))
         actions_index ->
  exists gathered s',
    DiscreteQRegression.__call__ model observations returns actions_index s =
      (Ok {| loss := loss_coeff (self s) *
                     item (loss_class (self s) gathered returns) |}, s') /\
    In (Backward (scale (loss_coeff (self s))
                        (loss_class (self s) gathered returns)))
       (calls s') /\
    length (values gathered) = length actions_index /\
    forall i row j a,
      nth_error actions_index i = Some row -> nth_error row j = Some a ->
      nth_error (nth i (values gathered) []) j =
        Some (nth (Z.to_nat (Qtrunc a)) (nth i (values q) []) 0) /\
      forall k : Z,
        a == inject_Z k ->
        nth_error (nth i (values gathered) []) j =
          Some (nth (Z.to_nat k) (nth i (values q) []) 0).
Proof.
  intros q Hto Hacc Hlen Hrows Hidx.
  assert (Hidx' : Forall (Forall (fun k => (0 <= k < Z.of_nat num_actions)%Z))
                    (long actions_index)).
  { unfold long. apply Forall_map.
    eapply Forall_impl; [|exact Hidx]. intros row Hrow. now apply Forall_map. }
  destruct (@gather_rows_ok num_actions (values q) (long actions_index))
    as (g & Hg & Hgl & Hgn); [|assumption | assumption |].
  { unfold long. rewrite length_map. lia. }
  destruct (optimizer_constructed Hacc)
    as (it & gs & s2 & Hit & Hnew & Hself2 & Hw2 & Hopts2 & Hcalls2).
  unfold DiscreteQRegression.__call__. enter_call Hit.
  erewrite bind_ok by exact Hnew.
  erewrite bind_ok by apply get_run.
  cbv zeta. rewrite Hw2, Hto.
  change (match model with
          | IsCritic c => c_forward c (weight s) [observations]
          | IsActorCritic ac => forward_critics ac (weight s) [observations]
          end) with q.
  erewrite bind_ok by (apply T_gather_run; exact Hg).
  erewrite bind_ok by apply attr_run.
  erewrite bind_ok by apply attr_run.
  rewrite Hself2.
  set (gathered := {| values := g; dvalues := _ |}).
  destruct (@run_fresh_optimizer
              (scale (loss_coeff (self s)) (loss_class (self s) gathered returns))
              it s s2 _ Hself2 Hopts2 Hcalls2) as (s' & Hrun & Hin & _).
  erewrite bind_ok by exact Hrun.
  exists gathered, s'. split; [reflexivity|].
  split; [exact Hin|]. split.
  { cbn [values gathered]. rewrite Hgl. unfold long. apply length_map. }
  intros i row j a Hi Hj.
  destruct (long_nth_error actions_index i j Hi Hj) as (idx & Hi' & Hj').
  assert (Hcell : nth_error (nth i (values gathered) []) j =
                  Some (nth (Z.to_nat (Qtrunc a)) (nth i (values q) []) 0))
    by (eapply Hgn; eassumption).
  split; [exact Hcell|].
  intros k Hk. rewrite <- (Qtrunc_inject_Z Hk). exact Hcell.
Qed.

(** C10 (as amended).  One fresh optimizer per call that gets to build
    one, none kept.  A call of any of the three regression updaters,
    whether it returns or raises, leaves the updater object as it was ([optimizer_class], [lr], [max_grad],
    [loss_class], [loss_coeff]; the object has no other attribute).  When
    the optimizer's constructor accepts what it is given ([lr] not negative,
    at least one critic parameter), the call constructs exactly one
    optimizer, of the updater's class and learning rate and starting from
    the initial state of the class, and resets and steps no optimizer but
    this one; the optimizers that existed before the call are as they were.
    When the constructor refuses, the call raises its [ValueError]: no
    optimizer is built, none is touched, and no backend call is made. *)
Theorem updater_call_builds_fresh_optimizer (model : Model)
  (observations actions returns actions_index : Matrix) (s : State) :
  fresh_optimizer_per_call model s
    (ValueRegression.__call__ model observations returns s) /\
  fresh_optimizer_per_call model s
    (ContinuousQRegression.__call__ model observations actions returns s) /\
  fresh_optimizer_per_call model s
    (DiscreteQRegression.__call__ model observations returns actions_index s).
Proof.
  assert (Hper : forall (out : result UpdaterLog * State),
            (constructor_accepts model s -> one_fresh_optimizer s (snd out)) ->
            (~ constructor_accepts model s -> built_none s out) ->
            fresh_optimizer_per_call model s out).
  { intros out Hyes Hno. unfold fresh_optimizer_per_call.
    split; [|split; assumption].
    destruct (constructor_accepts_dec model s) as [Ha|Hn].
    - apply (Hyes Ha).
    - apply (Hno Hn). }
  split; [|split]; apply Hper;
    [ | exact (@value_call_refused model observations returns s)
      | | exact (@continuous_call_refused model observations actions returns s)
      | | exact (@discrete_call_refused model observations returns
                   actions_index s) ];
    intros Hacc;
    destruct (optimizer_constructed Hacc)
      as (it & gs & s2 & Hit & Hnew & Hself2 & Hw2 & Hopts2 & Hcalls2).
  - unfold ValueRegression.__call__. enter_call Hit.
    erewrite bind_ok by exact Hnew.
    erewrite bind_ok by apply get_run.
    cbv zeta.
    erewrite bind_ok by apply attr_run.
    erewrite bind_ok by apply attr_run.
    match goal with
    | |- context [BaseCriticUpdater.run_optimizer _ ?l _] =>
        destruct (@run_fresh_optimizer l it s s2 _ Hself2 Hopts2 Hcalls2)
          as (s' & Hrun & _ & Hframe)
    end.
    erewrite bind_ok by exact Hrun. exact Hframe.
  - unfold ContinuousQRegression.__call__. enter_call Hit.
    erewrite bind_ok by exact Hnew.
    erewrite bind_ok by apply get_run.
    cbv zeta.
    erewrite bind_ok by apply attr_run.
    erewrite bind_ok by apply attr_run.
    match goal with
    | |- context [BaseCriticUpdater.run_optimizer _ ?l _] =>
        destruct (@run_fresh_optimizer l it s s2 _ Hself2 Hopts2 Hcalls2)
          as (s' & Hrun & _ & Hframe)
    end.
    erewrite bind_ok by exact Hrun. exact Hframe.
  - unfold DiscreteQRegression.__call__. enter_call Hit.
    erewrite bind_ok by exact Hnew.
    erewrite bind_ok by apply get_run.
    cbv zeta.
    match goal with
    | |- context [T_gather ?t ?index] =>
        destruct (gather_rows (values t) index) as [g|e] eqn:Eg
    end.
    + erewrite bind_ok by (apply T_gather_run; exact Eg).
      erewrite bind_ok by apply attr_run.
      erewrite bind_ok by apply attr_run.
      match goal with
      | |- context [BaseCriticUpdater.run_optimizer _ ?l _] =>
          destruct (@run_fresh_optimizer l it s s2 _ Hself2 Hopts2 Hcalls2)
            as (s' & Hrun & _ & Hframe)
      end.
      erewrite bind_ok by exact Hrun. exact Hframe.
    + erewrite bind_raise by (apply T_gather_raise; exact Eg).
      cbn [snd]. unfold one_fresh_optimizer. split; [exact Hself2|].
      eexists _, _, []. split; [exact Hopts2|].
      split; [left; reflexivity|]. split; [exact Hcalls2 | constructor].
Qed.

(** C8 (as amended).  Constructing an updater never fails: whatever the
    learning rate and [max_grad], each of the three constructors returns an
    updater that holds the values it was given (or the defaults), unchecked. *)
Theorem updater_construction_never_fails
  (loss_class' : option LossModule) (optimizer_class' : option OptimizerClass)
  (lr' loss_coeff' max_grad' : option Q) :
  let u :=
    {| base := {| optimizer_class := default Adam optimizer_class';
                  lr := default (1 # 1000) lr';
                  max_grad := default 0 max_grad' |};
       loss_class := default MSELoss loss_class';
       loss_coeff := default 1 loss_coeff' |} in
  ValueRegression.__init__ loss_class' optimizer_class' lr' loss_coeff' max_grad'
    = Ok u /\
  ContinuousQRegression.__init__ loss_class' optimizer_class' lr' loss_coeff'
    max_grad' = Ok u /\
  DiscreteQRegression.__init__ loss_class' optimizer_class' lr' loss_coeff'
    max_grad' = Ok u.
Proof. repeat split. Qed.

End CriticProperties.

Section CriticExamples.
Import Critics CriticSpec.
#[local] Existing Instance Example2.torch.

Lemma sum_of_abs_nonneg gs : 0 <= Example2.sum_of_abs gs.
Proof.
  unfold Example2.sum_of_abs.
  induction gs as [|g gs IH]; [discriminate|].
  cbn [map Qsum fold_right]. fold (Qsum (map Qabs gs)).
  rewrite <- (Qplus_0_l 0). apply Qplus_le_compat; [apply Qabs_nonneg | exact IH].
Qed.

Lemma Qabs_square (g : Q) : Qabs g * Qabs g == g * g.
Proof. rewrite <- Qabs_Qmult. apply Qabs_pos. nra. Qed.

(** The sum of absolute values is never negative, scales with the
    gradients and is not below the Euclidean norm. *)
Lemma sum_of_abs_laws : @norm_laws Example2.torch.
Proof.
  split; [|split].
  - exact sum_of_abs_nonneg.
  - intros c gs Hc. cbn [norm Example2.torch]. unfold Example2.sum_of_abs.
    induction gs as [|g gs IH].
    + cbn. now rewrite Qmult_0_r.
    + cbn [map Qsum fold_right].
      fold (Qsum (map Qabs (map (Qmult c) gs))). fold (Qsum (map Qabs gs)).
      rewrite IH, Qabs_Qmult, (Qabs_pos c Hc). symmetry.
      apply Qmult_plus_distr_r.
  - intros gs. cbn [norm Example2.torch].
    induction gs as [|g gs IH]; [discriminate|].
    pose proof (sum_of_abs_nonneg gs) as HS.
    pose proof (Qabs_nonneg g) as Ha. pose proof (Qabs_square g) as Hq.
    unfold sum_of_squares, Example2.sum_of_abs in *.
    cbn [map Qsum fold_right].
    fold (Qsum (map Qabs gs)) in *.
    fold (Qsum (map (fun g0 => g0 * g0) gs)) in *.
    set (S := Qsum (map Qabs gs)) in *.
    set (T := Qsum (map (fun g0 => g0 * g0) gs)) in *.
    set (a := Qabs g) in *. nra.
Qed.

Lemma run_optimizer_order_witness :
  let o := 0%nat in
  let opt := Example2.optimizer01 in
  let l := Example2.loss5 in
  let it := FromList [0%nat; 1%nat] in
  let s := Example2.world_with_optimizer 1 in
  let max_norm := max_grad (base (self s)) in
  let clip := Qgt_bool max_norm 0 in
  let g1 := accumulated l (zeroed (o_params opt) (grad s)) in
  let g2 := if clip then clipped (yields it s) max_norm g1 else g1 in
  exists s',
    BaseCriticUpdater.run_optimizer o l it s = (Ok tt, s') /\
    calls s' =
      calls s ++ [ZeroGrad o; Backward l]
              ++ (if clip then [ClipGradNorm (yields it s) max_norm] else [])
              ++ [Step o] /\
    (forall p, grad s' p = g2 p) /\
    (clip = true -> norm (map (grad s') (yields it s)) <= max_norm) /\
    (clip = true ->
     sum_of_squares (map (grad s') (yields it s)) <= max_norm * max_norm) /\
    (clip = true ->
     norm (map g1 (yields it s)) + (1 # 1000000) <= max_norm ->
     forall p, grad s' p == g1 p) /\
    (forall p, weight s' p = step_weights opt (weight s) g2 p) /\
    nth_error (optimizers s') o = Some (stepped opt (weight s) g2) /\
    self s' = self s /\
    (forall p, mem p (o_params opt) = true -> g1 p == ditem l p) /\
    (clip = false ->
     forall p, mem p (o_params opt) = true -> grad s' p == ditem l p) /\
    exists s'',
      BaseCriticUpdater.run_optimizer o l it s' = (Ok tt, s'') /\
      (forall p, mem p (o_params opt) = true ->
         accumulated l (zeroed (o_params opt) (grad s')) p == ditem l p) /\
      (clip = false ->
       forall p, mem p (o_params opt) = true -> grad s'' p == grad s' p).
Proof.
  apply (@run_optimizer_order Example2.torch 0%nat Example2.optimizer01
           Example2.loss5 (FromList [0%nat; 1%nat])
           (Example2.world_with_optimizer 1)).
  - exact sum_of_abs_laws.
  - reflexivity.
Defined.

Lemma discrete_q_regression_gathers_witness :
  let model := IsCritic (Example2.critic 0%nat 1%nat) in
  let observations := [[2]; [3]] in
  let returns := [[1]; [1]] in
  let actions_index := [[0]; [1]] in
  let s := Example2.world 0 in
  let q := model_output model (weight s) [observations] in
  exists gathered s',
    DiscreteQRegression.__call__ model observations returns actions_index s =
      (Ok {| loss := loss_coeff (self s) *
                     item (loss_class (self s) gathered returns) |}, s') /\
    In (Backward (scale (loss_coeff (self s))
                        (loss_class (self s) gathered returns)))
       (calls s') /\
    length (values gathered) = length actions_index /\
    forall i row j a,
      nth_error actions_index i = Some row -> nth_error row j = Some a ->
      nth_error (nth i (values gathered) []) j =
        Some (nth (Z.to_nat (Qtrunc a)) (nth i (values q) []) 0) /\
      forall k : Z,
        a == inject_Z k ->
        nth_error (nth i (values gathered) []) j =
          Some (nth (Z.to_nat k) (nth i (values q) []) 0).
Proof.
  apply (@discrete_q_regression_gathers Example2.torch
           (IsCritic (Example2.critic 0%nat 1%nat)) [[2]; [3]] [[1]; [1]] [[0]; [1]]
           (Example2.world 0) 2%nat).
  - reflexivity.
  - split; [discriminate | discriminate].
  - reflexivity.
  - repeat constructor.
  - vm_compute. repeat (constructor; try easy).
Defined.

(** C10.  Not every call constructs an optimizer: with a learning rate of
    [-1] the constructor raises, and the call ends with no optimizer
    built. *)
Lemma negative_lr_builds_no_optimizer :
  ~ (forall (model : Model) (observations returns : Matrix) (s : State),
       one_fresh_optimizer s
         (snd (ValueRegression.__call__ model observations returns s))).
Proof.
  intros H.
  destruct (H (IsCritic (Example2.critic 0%nat 1%nat)) [[2]; [3]] [[1]; [1]]
              Example2.world_negative_lr)
    as (_ & ps & st & rest & Hopts & _).
  vm_compute in Hopts. discriminate Hopts.
Qed.

(** C8.  A negative learning rate and a negative [max_grad] are accepted:
    construction does not fail on an invalid configuration. *)
Lemma init_accepts_invalid_configuration :
  ~ (forall lr' max_grad' : Q,
       ~ 0 < lr' \/ ~ 0 <= max_grad' ->
       exists e,
         ValueRegression.__init__ None None (Some lr') None (Some max_grad')
           = Raise e).
Proof.
  intros H. destruct (H (-1) (-1)) as [e He].
  - left. intros Hlt. discriminate Hlt.
  - discriminate He.
Qed.

End CriticExamples.

(** * More properties of the training loop *)

Section MoreAgentProperties.
Import Agent AgentSpec Trajectory.
Context {C : Collaborators}.
Local Open Scope agent_scope.

Lemma added_app t u : Trace.added (t ++ u) = Trace.added t ++ Trace.added u.
Proof.
  induction t as [|e t IH]; [reflexivity|].
  destruct e; cbn; rewrite ?IH; reflexivity.
Qed.

Lemma count_resets_app t u :
  count_resets (t ++ u) = (count_resets t + count_resets u)%nat.
Proof. unfold count_resets. now rewrite filter_app, length_app. Qed.

Lemma count_done_app ts us :
  count_done (ts ++ us) = (count_done ts + count_done us)%nat.
Proof. unfold count_done. now rewrite filter_app, length_app. Qed.

(** What one pass through the body of [step_env] leaves in the trace. *)
Lemma step_env_body_transition obs s :
  let '(o', s', t) := step_env_body obs s in
  exists x,
    Trace.added t = [x] /\
    observation x = obs /\
    (done x = false -> o' = next_observation x) /\
    count_resets t = (if done x then 1 else 0)%nat.
Proof.
  rewrite step_env_body_unfold. unfold chosen_action.
  destruct (action_explorer s) as [x|].
  - destruct (explorer_call obs x) as [a x']. cbn.
    destruct (env_step None (env s)) as [[[[r o'] d] i] e]. cbn.
    destruct d; [destruct (env_reset e) as [o0 e0]|];
      eexists; repeat split; try reflexivity; discriminate.
  - destruct (model_call obs (model s)) as [a m]. cbn.
    destruct (env_step None (env s)) as [[[[r o'] d] i] e]. cbn.
    destruct d; [destruct (env_reset e) as [o0 e0]|];
      eexists; repeat split; try reflexivity; discriminate.
Qed.

Lemma follows_cons o x o1 ts :
  observation x = o ->
  (done x = false -> o1 = next_observation x) ->
  follows o1 ts ->
  follows o (x :: ts).
Proof.
  intros Hx Hlink Hts. cbn [follows]. split; [exact Hx|].
  destruct ts as [|y ts]; [exact I|].
  destruct Hts as [Hy Hrest]. split.
  - intros Hd. rewrite Hy. apply Hlink, Hd.
  - cbn [follows]. split; [reflexivity | exact Hrest].
Qed.

Lemma ends_at_cons o x o1 ts o' :
  (done x = false -> o1 = next_observation x) ->
  ends_at o1 ts o' ->
  ends_at o (x :: ts) o'.
Proof.
  unfold ends_at. intros Hlink Hend. cbn [rev].
  destruct (rev ts) as [|z zs] eqn:E.
  - cbn. intros Hd. rewrite Hend. apply Hlink, Hd.
  - cbn. exact Hend.
Qed.


Lemma ends_at_tail o o2 x y ts o' :
  ends_at o (x :: y :: ts) o' <-> ends_at o2 (y :: ts) o'.
Proof.
  unfold ends_at. cbn [rev].
  destruct (rev ts ++ [y]) as [|z zs] eqn:E.
  - destruct (rev ts); discriminate.
  - reflexivity.
Qed.

Lemma follows_app o ts o1 us :
  follows o ts -> ends_at o ts o1 -> follows o1 us -> follows o (ts ++ us).
Proof.
  revert o. induction ts as [|x ts IH]; intros o Hf He Hu.
  - unfold ends_at in He. cbn in He. subst o1. exact Hu.
  - destruct ts as [|y ts].
    + destruct Hf as [Hx _]. unfold ends_at in He. cbn in He.
      cbn [app]. eapply follows_cons; eassumption.
    + destruct Hf as (Hx & Hlink & Hrest).
      cbn [app]. change (y :: ts ++ us) with ((y :: ts) ++ us).
      apply (@follows_cons o x (observation y)); [exact Hx | exact Hlink |].
      apply IH; [exact Hrest | | exact Hu].
      now apply (ends_at_tail o (observation y) x y ts o1).
Qed.

Lemma ends_at_app o ts o1 us o' :
  ends_at o ts o1 -> ends_at o1 us o' -> ends_at o (ts ++ us) o'.
Proof.
  unfold ends_at. rewrite rev_app_distr.
  destruct (rev us) as [|z zs]; cbn.
  - intros H ->. exact H.
  - intros _ H. exact H.
Qed.

Lemma runs_on_nil o : runs_on o [] o.
Proof. repeat split. Qed.

Lemma runs_on_app o t o1 u o' :
  runs_on o t o1 -> runs_on o1 u o' -> runs_on o (t ++ u) o'.
Proof.
  intros (Hf & He & Hc) (Hf' & He' & Hc'). unfold runs_on.
  rewrite added_app, count_resets_app, count_done_app, Hc, Hc'.
  split; [eapply follows_app; eassumption|].
  split; [eapply ends_at_app; eassumption | reflexivity].
Qed.

Lemma step_env_body_runs_on obs s :
  let '(o', _, t) := step_env_body obs s in runs_on obs t o'.
Proof.
  pose proof (step_env_body_transition obs s) as H.
  destruct (step_env_body obs s) as [[o' s'] t].
  destruct H as (x & Ha & Hx & Hlink & Hr).
  unfold runs_on. rewrite Ha, Hr. split; [|split].
  - cbn. split; [exact Hx | exact I].
  - unfold ends_at. cbn. exact Hlink.
  - unfold count_done. cbn. destruct (done x); reflexivity.
Qed.

Lemma step_env_loop_runs_on (xs : list Z) obs s :
  let '(o', _, t) := for_each xs (fun _ o => step_env_body o) obs s in
  runs_on obs t o'.
Proof.
  revert obs s. induction xs as [|x xs IH]; intros obs s.
  - cbn. apply runs_on_nil.
  - cbn [for_each]. unfold bind.
    pose proof (step_env_body_runs_on obs s) as H1.
    destruct (step_env_body obs s) as [[o1 s1] t1].
    specialize (IH o1 s1).
    destruct (for_each xs (fun _ o => step_env_body o) o1 s1) as [[o2 s2] t2].
    eapply runs_on_app; eassumption.
Qed.

(** X1.  [step_env] with nothing to do.  Asked for no step, or for a
    negative number of steps, [step_env] returns the observation it was
    given, leaves the agent as it is and calls nothing. *)
Theorem step_env_no_steps (obs : Obs) (num_steps : Z) (s : Agent) :
  (num_steps <= 0)%Z -> step_env obs num_steps s = (obs, s, []).
Proof.
  intros H. unfold step_env, range.
  replace (Z.to_nat num_steps) with 0%nat by lia. reflexivity.
Qed.

Lemma for_each_same_length (A : Type) (xs ys : list Z) (f : A -> M A) a s :
  length xs = length ys ->
  for_each xs (fun _ => f) a s = for_each ys (fun _ => f) a s.
Proof.
  revert ys a s. induction xs as [|x xs IH]; intros [|y ys] a s H;
    try discriminate; [reflexivity|].
  cbn [for_each]. unfold bind. destruct (f a s) as [[a1 s1] t1].
  rewrite (IH ys) by (cbn in H; lia). reflexivity.
Qed.

(** X2.  Steps add up.  Taking [a + b] steps is taking [a] steps and then
    [b] more from the observation and the agent the first [a] left. *)
Theorem step_env_add (obs : Obs) (a b : Z) (s : Agent) :
  (0 <= a)%Z -> (0 <= b)%Z ->
  step_env obs (a + b) s =
    let '(o1, s1, t1) := step_env obs a s in
    let '(o2, s2, t2) := step_env o1 b s1 in
    (o2, s2, t1 ++ t2).
Proof.
  intros Ha Hb. unfold step_env.
  rewrite <- for_each_app. apply for_each_same_length.
  rewrite length_app, !length_range. lia.
Qed.

(** X3.  The transitions of [step_env] follow one another.  The first
    transition appended starts at the observation given; each later one
    starts where the one before it led, unless that one ended an episode;
    and the observation returned is where the last one led, unless it ended
    an episode. *)
Theorem step_env_transitions_follow (obs : Obs) (num_steps : Z) (s : Agent) :
  let '(o', _, t) := step_env obs num_steps s in
  follows obs (Trace.added t) /\ ends_at obs (Trace.added t) o'.
Proof.
  pose proof (step_env_loop_runs_on (range num_steps) obs s) as H.
  unfold step_env.
  destruct (for_each (range num_steps) _ obs s) as [[o' s'] t].
  destruct H as (Hf & He & _). split; assumption.
Qed.

(** X4.  One reset per episode ended.  [step_env] resets the environment
    exactly as many times as it appends a transition whose [done] flag is
    set. *)
Theorem step_env_resets_after_done (obs : Obs) (num_steps : Z) (s : Agent) :
  let '(_, _, t) := step_env obs num_steps s in
  count_resets t = count_done (Trace.added t).
Proof.
  pose proof (step_env_loop_runs_on (range num_steps) obs s) as H.
  unfold step_env.
  destruct (for_each (range num_steps) _ obs s) as [[o' s'] t].
  destruct H as (_ & _ & Hc). exact Hc.
Qed.

Lemma step_env_loop_with_explorer (xs : list Z) obs s x :
  action_explorer s = Some x ->
  let '(_, s', t) := for_each xs (fun _ o => step_env_body o) obs s in
  filter is_model_call t = [] /\ model s' = model s /\
  length (filter is_explorer_call t) = length xs /\
  exists x', action_explorer s' = Some x'.
Proof.
  revert obs s x. induction xs as [|i xs IH]; intros obs s x Hx.
  - cbn. split; [reflexivity|]. split; [reflexivity|].
    split; [reflexivity|]. exists x. exact Hx.
  - cbn [for_each]. unfold bind.
    assert (H1 : let '(_, s1, t1) := step_env_body obs s in
                 filter is_model_call t1 = [] /\ model s1 = model s /\
                 length (filter is_explorer_call t1) = 1%nat /\
                 exists x', action_explorer s1 = Some x').
    { rewrite step_env_body_unfold. unfold chosen_action. rewrite Hx.
      destruct (explorer_call obs x) as [a x']. cbn.
      destruct (env_step None (env s)) as [[[[r o'] d] inf] e]. cbn.
      destruct d; [destruct (env_reset e) as [o0 e0]|];
        (split; [reflexivity|]; split; [reflexivity|];
         split; [reflexivity|]; eexists; reflexivity). }
    destruct (step_env_body obs s) as [[o1 s1] t1].
    destruct H1 as (Hm1 & Hs1 & He1 & x1 & Hx1).
    specialize (IH o1 s1 x1 Hx1).
    destruct (for_each xs (fun _ o => step_env_body o) o1 s1) as [[o2 s2] t2].
    destruct IH as (Hm2 & Hs2 & He2 & Hx2).
    rewrite !filter_app, Hm1, Hm2, length_app, He1, He2.
    split; [reflexivity|]. split; [congruence|].
    split; [reflexivity | exact Hx2].
Qed.

Lemma step_env_loop_without_explorer (xs : list Z) obs s :
  action_explorer s = None ->
  let '(_, s', t) := for_each xs (fun _ o => step_env_body o) obs s in
  filter is_explorer_call t = [] /\ action_explorer s' = None /\
  length (filter is_model_call t) = length xs.
Proof.
  revert obs s. induction xs as [|i xs IH]; intros obs s Hx.
  - cbn. repeat split. exact Hx.
  - cbn [for_each]. unfold bind.
    assert (H1 : let '(_, s1, t1) := step_env_body obs s in
                 filter is_explorer_call t1 = [] /\ action_explorer s1 = None /\
                 length (filter is_model_call t1) = 1%nat).
    { rewrite step_env_body_unfold. unfold chosen_action. rewrite Hx.
      destruct (model_call obs (model s)) as [a m]. cbn.
      destruct (env_step None (env s)) as [[[[r o'] d] inf] e]. cbn.
      destruct d; [destruct (env_reset e) as [o0 e0]|];
        repeat split; assumption. }
    destruct (step_env_body obs s) as [[o1 s1] t1].
    destruct H1 as (He1 & Hx1 & Hm1).
    specialize (IH o1 s1 Hx1).
    destruct (for_each xs (fun _ o => step_env_body o) o1 s1) as [[o2 s2] t2].
    destruct IH as (He2 & Hx2 & Hm2).
    rewrite !filter_app, He1, He2, length_app, Hm1, Hm2.
    repeat split. exact Hx2.
Qed.

(** X5.  Explorer or model, never both.  An agent with an explorer asks the
    explorer once per step and never calls the model, whose state stays as
    it was; an agent without one calls the model once per step and ends
    without an explorer. *)
Theorem step_env_explorer_or_model (obs : Obs) (num_steps : Z) (s : Agent) :
  let '(_, s', t) := step_env obs num_steps s in
  match action_explorer s with
  | Some _ =>
      filter is_model_call t = [] /\ model s' = model s /\
      length (filter is_explorer_call t) = Z.to_nat num_steps /\
      action_explorer s' <> None
  | None =>
      filter is_explorer_call t = [] /\ action_explorer s' = None /\
      length (filter is_model_call t) = Z.to_nat num_steps
  end.
Proof.
  unfold step_env. destruct (action_explorer s) as [x|] eqn:Hx.
  - pose proof (step_env_loop_with_explorer (range num_steps) obs s Hx) as H.
    destruct (for_each (range num_steps) _ obs s) as [[o' s'] t].
    destruct H as (Hm & Hs & He & x' & Hx').
    rewrite length_range in He. repeat split; try assumption. congruence.
  - pose proof (step_env_loop_without_explorer (range num_steps) obs s Hx) as H.
    destruct (for_each (range num_steps) _ obs s) as [[o' s'] t].
    rewrite length_range in H. exact H.
Qed.

(** X6.  When [fit] itself raises.  Its collaborators returning, [fit]
    raises if and only if the buffer is a rollout buffer and [buffer_size]
    is [0]; the error is then the [ZeroDivisionError] of the division of
    [num_steps] by [buffer_size]. *)
Theorem fit_raises_on_zero_rollout_size
  (_fit : Z -> Z -> Z -> Agent -> Log * Agent)
  (num_steps batch_size actor_epochs critic_epochs : Z) (s : Agent) (e : exn) :
  fit _fit num_steps batch_size actor_epochs critic_epochs s = Raise e <->
  is_rollout (buffer s) = true /\ buffer_size s = 0%Z /\ e = ZeroDivisionError.
Proof.
  rewrite fit_unfold. unfold floordiv.
  destruct (is_rollout (buffer s)).
  - destruct (Z.eqb_spec (buffer_size s) 0) as [E|E].
    + split.
      * intros H. inversion H. auto.
      * intros (_ & _ & ->). reflexivity.
    + destruct (env_reset (env s)) as [o en].
      destruct (for_each _ _ o (set_env en s)) as [[o' s'] t].
      split; [discriminate | intros (_ & H & _); contradiction].
  - destruct (env_reset (env s)) as [o en].
    destruct (for_each _ _ o (set_env en s)) as [[o' s'] t].
    split; [discriminate | intros (H & _); discriminate].
Qed.

(** X7.  Runs that train nothing.  Off-policy with [num_steps <= 0], or
    on-policy with [num_steps] below [buffer_size], [fit] resets the
    environment and stops: [_fit] is never invoked, nothing is appended to
    the buffer and nothing is logged. *)
Theorem fit_without_iterations
  (_fit : Z -> Z -> Z -> Agent -> Log * Agent)
  (num_steps batch_size actor_epochs critic_epochs : Z) (s : Agent) :
  (is_rollout (buffer s) = false /\ (num_steps <= 0)%Z) \/
  (is_rollout (buffer s) = true /\ (0 < buffer_size s)%Z /\
   (num_steps < buffer_size s)%Z) ->
  fit _fit num_steps batch_size actor_epochs critic_epochs s =
    Ok (set_env (snd (env_reset (env s))) s, [EnvReset]).
Proof.
  intros H. rewrite fit_unfold. unfold floordiv.
  assert (Hn : exists n, (n <= 0)%Z /\
            (if is_rollout (buffer s)
             then if (buffer_size s =? 0)%Z then Raise ZeroDivisionError
                  else Ok (num_steps / buffer_size s)%Z
             else Ok num_steps) = Ok n).
  { destruct H as [[-> Hle] | (-> & Hpos & Hlt)].
    - eauto.
    - destruct (Z.eqb_spec (buffer_size s) 0); [lia|].
      eexists. split; [|reflexivity].
      destruct (Z.le_gt_cases 0 num_steps).
      + rewrite Z.div_small by lia. lia.
      + assert (num_steps / buffer_size s < 0)%Z
          by (apply Z.div_lt_upper_bound; lia). lia. }
  destruct Hn as (n & Hle & ->).
  destruct (env_reset (env s)) as [o en]. unfold range.
  replace (Z.to_nat n) with 0%nat by lia. reflexivity.
Qed.

Lemma list_sum_const (f : Z -> nat) (c : nat) start len :
  (forall k, (start <= k)%nat -> f (Z.of_nat k) = c) ->
  list_sum (map f (map Z.of_nat (seq start len))) = (len * c)%nat.
Proof.
  revert start. induction len as [|len IH]; intros start H; [reflexivity|].
  cbn. rewrite H by lia. rewrite IH; [reflexivity|]. intros k Hk. apply H. lia.
Qed.

(** X8.  How many transitions an on-policy run collects.  With a rollout
    buffer of size [C > 0], [num_steps >= C] and [batch_size >= 0], [fit]
    appends [batch_size + (num_steps // C - 1) * C] transitions in all. *)
Theorem fit_on_policy_total
  (_fit : Z -> Z -> Z -> Agent -> Log * Agent)
  (num_steps batch_size actor_epochs critic_epochs : Z) (s : Agent) :
  fit_keeps_config _fit ->
  is_rollout (buffer s) = true ->
  (0 < buffer_size s)%Z ->
  (buffer_size s <= num_steps)%Z ->
  (0 <= batch_size)%Z ->
  exists s' t,
    fit _fit num_steps batch_size actor_epochs critic_epochs s = Ok (s', t) /\
    Z.of_nat (Trace.count_adds t) =
      (batch_size + (num_steps / buffer_size s - 1) * buffer_size s)%Z.
Proof.
  intros Hk Hr HC HN HB. rewrite fit_unfold, Hr. unfold floordiv.
  destruct (Z.eqb_spec (buffer_size s) 0) as [E|_]; [lia|].
  pose proof (@fit_schedule C _fit (num_steps / buffer_size s) batch_size
                actor_epochs critic_epochs s Hk) as H.
  destruct (env_reset (env s)) as [o e].
  destruct (for_each _ _ o (set_env e s)) as [[o' s'] t].
  destruct H as (_ & Ha & _).
  exists s', (EnvReset :: t). split; [reflexivity|].
  assert (1 <= num_steps / buffer_size s)%Z
    by (apply Z.div_le_lower_bound; lia).
  rewrite Ha. unfold range.
  destruct (Z.to_nat (num_steps / buffer_size s)) as [|m] eqn:Em; [lia|].
  cbn [seq map list_sum fold_right].
  fold (list_sum (map (fun step => Z.to_nat (steps_of batch_size step s))
                      (map Z.of_nat (seq 1 m)))).
  rewrite (@list_sum_const _ (Z.to_nat (buffer_size s))).
  - unfold steps_of. cbn. nia.
  - intros k Hge. unfold steps_of. rewrite Hr.
    destruct (Z.eqb_spec (Z.of_nat k) 0); [lia | reflexivity].
Qed.

Lemma write_log_events_no_env log step :
  Trace.added (write_log_events log step) = [] /\
  count_resets (write_log_events log step) = 0%nat.
Proof.
  unfold write_log_events, count_resets.
  destruct (kl_divergence log), (entropy log); split; reflexivity.
Qed.

Section WithFit.
Variable _fit : Z -> Z -> Z -> Agent -> Log * Agent.

Lemma fit_iteration_runs_on bs ae ce step obs s :
  let '(o', _, t) := fit_iteration _fit bs ae ce step obs s in
  runs_on obs t o'.
Proof.
  rewrite fit_iteration_unfold.
  pose proof (step_env_loop_runs_on (range (steps_of bs step s)) obs s) as H.
  unfold step_env.
  destruct (for_each (range (steps_of bs step s)) _ obs s) as [[o1 s1] t1].
  destruct (_fit bs ae ce s1) as [log s2].
  apply (runs_on_app H).
  destruct (write_log_events_no_env
              (set_reward (np_mean (rewards (last bs (buffer s2)))) log) step)
    as [Ha Hr].
  unfold runs_on.
  change (Trace.added (Fit bs ae ce :: ?w)) with (Trace.added w).
  cbn [Trace.added].
  change (count_resets (Fit bs ae ce :: write_log_events
            (set_reward (np_mean (rewards (last bs (buffer s2)))) log) step))
    with (count_resets (write_log_events
            (set_reward (np_mean (rewards (last bs (buffer s2)))) log) step)).
  rewrite Ha, Hr. repeat split.
Qed.

Lemma fit_loop_runs_on bs ae ce (xs : list Z) obs s :
  let '(o', _, t) := for_each xs (fit_iteration _fit bs ae ce) obs s in
  runs_on obs t o'.
Proof.
  revert obs s. induction xs as [|x xs IH]; intros obs s.
  - cbn. apply runs_on_nil.
  - cbn [for_each]. unfold bind.
    pose proof (fit_iteration_runs_on bs ae ce x obs s) as H1.
    destruct (fit_iteration _fit bs ae ce x obs s) as [[o1 s1] t1].
    specialize (IH o1 s1).
    destruct (for_each xs (fit_iteration _fit bs ae ce) o1 s1) as [[o2 s2] t2].
    eapply runs_on_app; eassumption.
Qed.

End WithFit.

(** X9.  A whole run is one trajectory.  In a run of [fit], whatever [_fit]
    does, the transitions appended over all iterations follow one another
    from the observation of the initial reset: each starts where the one
    before it led, unless that one ended an episode.  [fit] itself resets
    the environment once at the start and once more for every transition
    appended with its [done] flag set. *)
Theorem fit_is_one_trajectory
  (_fit : Z -> Z -> Z -> Agent -> Log * Agent)
  (num_steps batch_size actor_epochs critic_epochs : Z) (s s' : Agent)
  (t : list Event) :
  fit _fit num_steps batch_size actor_epochs critic_epochs s = Ok (s', t) ->
  follows (fst (env_reset (env s))) (Trace.added t) /\
  count_resets t = S (count_done (Trace.added t)).
Proof.
  rewrite fit_unfold.
  destruct (if is_rollout (buffer s) then _ else _) as [n|e]; [|discriminate].
  destruct (env_reset (env s)) as [o en].
  pose proof (fit_loop_runs_on _fit batch_size actor_epochs critic_epochs
                (range n) o (set_env en s)) as H.
  destruct (for_each (range n) _ o (set_env en s)) as [[o' s2] t2].
  intros E. inversion E; subst s' t.
  destruct H as (Hf & _ & Hc).
  split; [exact Hf|].
  change (count_resets (EnvReset :: t2)) with (S (count_resets t2)).
  now rewrite Hc.
Qed.

(** X10.  Loading a checkpoint that is there.  When the file at the path
    with [.pt] appended holds a state dict that the model accepts, [load]
    returns the agent with its model replaced by the one
    [load_state_dict] gives and everything else as it was, and logs, when
    [verbose], only that it is loading. *)
Theorem load_existing_checkpoint (fs : FileSystem) (path : string) (s : Agent)
  (d : StateDict) (m : ModelState) :
  fs (path ++ ".pt")%string = Some (Checkpoint d) ->
  load_state_dict d (model s) = Ok m ->
  load fs path s =
    Ok ({| env := env s; model := m; action_explorer := action_explorer s;
           buffer := buffer s; buffer_size := buffer_size s;
           verbose := verbose s |},
        if verbose s
        then [LoggerInfo (Text ("Loading weights from " ++ (path ++ ".pt"))%string)]
        else []).
Proof.
  intros Hfs Hm. unfold load, T_load, set_model. rewrite Hfs, Hm.
  destruct (verbose s); reflexivity.
Qed.

(** X11.  Only a missing file is forgiven.  An error other than
    [FileNotFoundError], whether [T.load] raises it or
    [load_state_dict] does, comes out of [load] as it is; a
    [FileNotFoundError] is caught even when it is [load_state_dict] that
    raises it, and the agent is then left as it was. *)
Theorem load_forgives_only_missing_files (fs : FileSystem) (path : string)
  (s : Agent) (e : exn) :
  T_load fs (path ++ ".pt")%string = Raise e \/
  (exists d, T_load fs (path ++ ".pt")%string = Ok d /\
             load_state_dict d (model s) = Raise e) ->
  match e with
  | FileNotFoundError => exists t, load fs path s = Ok (s, t)
  | _ => load fs path s = Raise e
  end.
Proof.
  intros H. unfold load.
  assert (Hr : match T_load fs (path ++ ".pt")%string with
               | Ok d => load_state_dict d (model s)
               | Raise e0 => Raise e0
               end = Raise e).
  { destruct H as [-> | (d & -> & ->)]; reflexivity. }
  rewrite Hr. destruct e; [eexists; reflexivity | reflexivity ..].
Qed.

End MoreAgentProperties.

Section SaveProperties.
Import Agent Persistence.
Context {C : Collaborators} {D : Disk}.

Lemma has_slash_app_pt p : has_slash (p ++ ".pt") = has_slash p.
Proof.
  induction p as [|c p IH]; [reflexivity|]. cbn. now rewrite IH.
Qed.

Lemma no_slash_no_head p : has_slash p = false -> up_to_last_slash p = ""%string.
Proof.
  induction p as [|c p IH]; [reflexivity|]. cbn.
  intros H. apply orb_false_iff in H. destruct H as [Hc Hp].
  now rewrite Hp, Hc.
Qed.

(** X12.  Saving under a bare file name fails.  When the path given to
    [save] has no slash, the directory part of the path with [.pt] appended
    is the empty string, [os.makedirs] has nothing to make and raises
    [FileNotFoundError]: [save] raises it, having logged that it is saving
    when [verbose], and leaves the file system as it was, whatever [T.save]
    would have written. *)
Theorem save_bare_name_raises (fs : FileSystem) (path : string) (s : Agent) :
  has_slash path = false ->
  save fs path s =
    (Raise FileNotFoundError, fs,
     if verbose s
     then [LoggerInfo (Text ("Saving weights to " ++ (path ++ ".pt"))%string)]
     else []).
Proof.
  intros H. unfold save, dirname.
  rewrite no_slash_no_head by now rewrite has_slash_app_pt.
  reflexivity.
Qed.

(** X13.  What [save] writes, [load] reads.  Provided the backend reads
    back from a path what it saved there: after a [save] that returned,
    [load] called with the same path finds the state dict of the model that
    was saved and hands it to [load_state_dict]; [save] itself logs, when
    [verbose], only that it is saving. *)
Theorem save_then_load (fs fs' : FileSystem) (path : string) (s : Agent)
  (t : list Event) :
  (forall d p fs0 fs1,
     T_save d p fs0 = (Ok tt, fs1) -> fs1 p = Some (Checkpoint d)) ->
  save fs path s = (Ok tt, fs', t) ->
  t = (if verbose s
       then [LoggerInfo (Text ("Saving weights to " ++ (path ++ ".pt"))%string)]
       else []) /\
  T_load fs' (path ++ ".pt")%string = Ok (state_dict (model s)) /\
  forall s2 m,
    load_state_dict (state_dict (model s)) (model s2) = Ok m ->
    load fs' path s2 =
      Ok (set_model m s2,
          if verbose s2
          then [LoggerInfo (Text ("Loading weights from " ++ (path ++ ".pt"))%string)]
          else []).
Proof.
  intros Hlaw. unfold save.
  destruct (makedirs _ fs) as [[[]|e] fs1]; [|discriminate].
  destruct (T_save _ _ fs1) as [[[]|e] fs2] eqn:Es; [|discriminate].
  intros E. inversion E; subst fs' t.
  pose proof (Hlaw _ _ _ _ Es) as Hfile.
  split; [reflexivity|].
  split; [unfold T_load; now rewrite Hfile|].
  intros s2 m Hm. unfold load, T_load. rewrite Hfile, Hm.
  destruct (verbose s2); reflexivity.
Qed.

End SaveProperties.

Section EnumerationProperties.
Import Enumerations.

(** X14.  Looking a member up by its value.  In each of the four
    enumerations the members' values are distinct: looking up the value of a
    member gives that member back, and a lookup that succeeds gives a member
    of the value asked for. *)
Theorem enumerations_round_trip :
  (forall m, by_value NetworkType.value NetworkType.members
               (NetworkType.value m) = Some m) /\
  (forall m, by_value TrajectoryType.value TrajectoryType.members
               (TrajectoryType.value m) = Some m) /\
  (forall m, by_value TrainFrequencyType.value TrainFrequencyType.members
               (TrainFrequencyType.value m) = Some m) /\
  (forall m, by_value HERGoalStrategy.value HERGoalStrategy.members
               (HERGoalStrategy.value m) = Some m) /\
  (forall (E : Type) (value_of : E -> string) members v m,
     by_value value_of members v = Some m -> value_of m = v).
Proof.
  repeat split; try (intros []; reflexivity).
  intros E value_of members v m H. unfold by_value in H.
  apply find_some in H. destruct H as [_ H]. now apply String.eqb_eq.
Qed.

End EnumerationProperties.

(** * More properties of the critic updaters *)

Section MoreCriticProperties.
Import Critics CriticSpec UpdaterSpec.
Context {L : TorchLib}.
Local Open Scope torch_scope.

(** The first lines of each [__call__], as above. *)
Ltac enter_call Hit :=
  erewrite bind_ok by exact Hit;
  erewrite bind_ok by apply attr_run;
  erewrite bind_ok by apply attr_run;
  cbn [self set_generators].

Lemma clipped_nothing max_norm g p : clipped [] max_norm g p = g p.
Proof. reflexivity. Qed.

Lemma assign_outside ps ws w p :
  mem p ps = false -> assign (combine ps ws) w p = w p.
Proof.
  revert ws. induction ps as [|k ps IH]; intros ws H; [reflexivity|].
  destruct ws as [|v ws]; [reflexivity|].
  cbn in H. apply orb_false_iff in H. destruct H as [Hk Hps].
  cbn. rewrite Nat.eqb_sym, Hk. apply IH, Hps.
Qed.

Lemma step_weights_outside opt w g p :
  mem p (o_params opt) = false -> step_weights opt w g p = w p.
Proof. intros H. unfold step_weights. now apply assign_outside. Qed.

(** The parameters [_get_model_parameters] gives: what they yield to the
    optimizer's constructor, and what they yield after it. *)
Lemma get_model_parameters_yields model s :
  exists it gs,
    BaseCriticUpdater._get_model_parameters model s =
      (Ok it, set_generators gs s) /\
    yields it (set_generators gs s) = critic_params model /\
    yields it (consume it (set_generators gs s)) = left_to_clip model.
Proof.
  destruct model as [c|ac]; cbn [BaseCriticUpdater._get_model_parameters].
  - eexists _, _. rewrite parameters_run. split; [reflexivity|].
    cbn. rewrite replace_nth_snoc, !nth_snoc. split; reflexivity.
  - destruct (extend_all_run (critics ac) [] s) as [gs Hgs].
    exists (FromList (flat_map c_parameters (critics ac))), gs.
    erewrite bind_ok by exact Hgs. repeat split.
Qed.

(** From [_get_model_parameters] to the end of [run_optimizer]. *)
Lemma update_run model s :
  constructor_accepts model s ->
  let cls := optimizer_class (base (self s)) in
  let rate := lr (base (self s)) in
  exists it gs s2,
    BaseCriticUpdater._get_model_parameters model s =
      (Ok it, set_generators gs s) /\
    new_optimizer cls it rate (set_generators gs s) =
      (Ok (length (optimizers s)), s2) /\
    self s2 = self s /\ weight s2 = weight s /\ grad s2 = grad s /\
    calls s2 =
      calls s ++ [NewOptimizer (length (optimizers s)) cls
                    (critic_params model) rate] /\
    forall l, exists s',
      BaseCriticUpdater.run_optimizer (length (optimizers s)) l it s2 =
        (Ok tt, s') /\
      updated model l s s'.
Proof.
  intros [Hrate Hps]. cbv zeta.
  destruct (get_model_parameters_yields model s) as (it & gs & Hit & Hy & Hc).
  exists it, gs. rewrite new_optimizer_run; [|exact Hrate | now rewrite Hy].
  eexists.
  split; [exact Hit|]. split; [reflexivity|].
  rewrite Hy.
  set (opt := fresh_optimizer _ (critic_params model) _).
  set (o := length (optimizers s)).
  set (s2 := add_call _ _).
  assert (Hopts2 : optimizers s2 = optimizers s ++ [opt])
    by (unfold s2; destruct it; reflexivity).
  assert (Hself2 : self s2 = self s) by (unfold s2; destruct it; reflexivity).
  assert (Hgrad2 : grad s2 = grad s) by (unfold s2; destruct it; reflexivity).
  assert (Hw2 : weight s2 = weight s) by (unfold s2; destruct it; reflexivity).
  assert (Hcalls2 : calls s2 =
            calls s ++ [NewOptimizer o (optimizer_class (base (self s)))
                          (critic_params model) (lr (base (self s)))])
    by (unfold s2; destruct it; reflexivity).
  assert (Hy2 : yields it s2 = left_to_clip model).
  { rewrite <- Hc. unfold s2. destruct it; reflexivity. }
  clearbody s2.
  split; [exact Hself2|]. split; [exact Hw2|]. split; [exact Hgrad2|].
  split; [exact Hcalls2|].
  intros l.
  assert (H : nth_error (optimizers s2) o = Some opt)
    by (rewrite Hopts2; apply nth_error_snoc).
  rewrite (@run_optimizer_run L o opt l it s2 H). cbv zeta.
  eexists. split; [reflexivity|].
  set (s3 := before_step o opt l it s2).
  assert (Hg3 : forall p, grad s3 p = grad_after_update model l s p).
  { intros p. unfold s3, before_step, grad_after_update.
    rewrite Hself2, Hy2, Hgrad2.
    destruct (Qgt_bool _ _); [destruct it|]; reflexivity. }
  assert (Hw3 : weight s3 = weight s).
  { unfold s3, before_step. rewrite <- Hw2.
    destruct (Qgt_bool _ _); [destruct it|]; reflexivity. }
  assert (Hc3 : calls s3 ++ [Step o] = calls s ++ calls_of_update model l s).
  { unfold s3, before_step, calls_of_update. rewrite Hself2, Hy2.
    fold o.
    destruct (Qgt_bool _ _); [destruct it|]; cbn;
      rewrite Hcalls2, <- ?app_assoc; reflexivity. }
  unfold updated.
  cbn [calls grad weight add_call set_optimizers set_weight].
  split; [exact Hc3|]. split; [exact Hg3|].
  intros p. unfold step_weights. rewrite Hw3.
  assert (Hmap : map (fun q => (weight s q, grad s3 q)) (o_params opt) =
                 map (fun q => (weight s q, grad_after_update model l s q))
                     (o_params opt)).
  { apply map_ext. intros q. now rewrite Hg3. }
  rewrite Hmap. reflexivity.
Qed.

(** What each [__call__] comes to when the constructor accepts. *)
Lemma value_call_run model observations returns s :
  constructor_accepts model s ->
  let l := scale (loss_coeff (self s))
             (loss_class (self s)
                (model_output model (weight s) [observations]) returns) in
  exists s',
    ValueRegression.__call__ model observations returns s =
      (Ok {| loss := item l |}, s') /\
    updated model l s s'.
Proof.
  intros Hacc. cbv zeta.
  destruct (update_run Hacc)
    as (it & gs & s2 & Hit & Hnew & Hself2 & Hw2 & _ & _ & Hrun).
  unfold ValueRegression.__call__. enter_call Hit.
  erewrite bind_ok by exact Hnew.
  erewrite bind_ok by apply get_run.
  cbv zeta.
  erewrite bind_ok by apply attr_run.
  erewrite bind_ok by apply attr_run.
  rewrite Hself2, Hw2.
  change (match model with
          | IsCritic c => c_forward c (weight s) [observations]
          | IsActorCritic ac => forward_critics ac (weight s) [observations]
          end) with (model_output model (weight s) [observations]).
  match goal with
  | |- context [BaseCriticUpdater.run_optimizer _ ?l _] =>
      destruct (Hrun l) as (s' & Hr & Hup)
  end.
  erewrite bind_ok by exact Hr.
  exists s'. split; [reflexivity | exact Hup].
Qed.

Lemma continuous_call_run model observations actions returns s :
  constructor_accepts model s ->
  let l := scale (loss_coeff (self s))
             (loss_class (self s)
                (model_output model (weight s) [observations; actions])
                returns) in
  exists s',
    ContinuousQRegression.__call__ model observations actions returns s =
      (Ok {| loss := item l |}, s') /\
    updated model l s s'.
Proof.
  intros Hacc. cbv zeta.
  destruct (update_run Hacc)
    as (it & gs & s2 & Hit & Hnew & Hself2 & Hw2 & _ & _ & Hrun).
  unfold ContinuousQRegression.__call__. enter_call Hit.
  erewrite bind_ok by exact Hnew.
  erewrite bind_ok by apply get_run.
  cbv zeta.
  erewrite bind_ok by apply attr_run.
  erewrite bind_ok by apply attr_run.
  rewrite Hself2, Hw2.
  change (match model with
          | IsCritic c => c_forward c (weight s) [observations; actions]
          | IsActorCritic ac =>
              forward_critics ac (weight s) [observations; actions]
          end) with (model_output model (weight s) [observations; actions]).
  match goal with
  | |- context [BaseCriticUpdater.run_optimizer _ ?l _] =>
      destruct (Hrun l) as (s' & Hr & Hup)
  end.
  erewrite bind_ok by exact Hr.
  exists s'. split; [reflexivity | exact Hup].
Qed.

Lemma discrete_call_run model observations returns actions_index s :
  constructor_accepts model s ->
  let q := model_output model (weight s) [observations] in
  let index := long (to_torch actions_index) in
  match gather_rows (values q) index with
  | Ok g =>
      let l := scale (loss_coeff (self s))
                 (loss_class (self s) (gathered_from q index g) returns) in
      exists s',
        DiscreteQRegression.__call__ model observations returns actions_index s
          = (Ok {| loss := item l |}, s') /\
        updated model l s s'
  | Raise e =>
      exists s',
        DiscreteQRegression.__call__ model observations returns actions_index s
          = (Raise e, s') /\
        weight s' = weight s /\ grad s' = grad s /\
        calls s' =
          calls s ++ [NewOptimizer (length (optimizers s))
                        (optimizer_class (base (self s)))
                        (critic_params model) (lr (base (self s)))]
  end.
Proof.
  intros Hacc. cbv zeta.
  destruct (update_run Hacc)
    as (it & gs & s2 & Hit & Hnew & Hself2 & Hw2 & Hg2 & Hc2 & Hrun).
  unfold DiscreteQRegression.__call__. enter_call Hit.
  erewrite bind_ok by exact Hnew.
  erewrite bind_ok by apply get_run.
  cbv zeta. rewrite Hw2.
  change (match model with
          | IsCritic c => c_forward c (weight s) [observations]
          | IsActorCritic ac => forward_critics ac (weight s) [observations]
          end) with (model_output model (weight s) [observations]).
  destruct (gather_rows _ _) as [g|e] eqn:Eg.
  - erewrite bind_ok by (apply T_gather_run; exact Eg).
    erewrite bind_ok by apply attr_run.
    erewrite bind_ok by apply attr_run.
    rewrite Hself2.
    match goal with
    | |- context [BaseCriticUpdater.run_optimizer _ ?l _] =>
        destruct (Hrun l) as (s' & Hr & Hup)
    end.
    erewrite bind_ok by exact Hr.
    exists s'. split; [reflexivity | exact Hup].
  - erewrite bind_raise by (apply T_gather_raise; exact Eg).
    exists s2. split; [reflexivity|].
    split; [exact Hw2|]. split; [exact Hg2 | exact Hc2].
Qed.

(** A call that returned did not raise in the constructor. *)
Lemma returned_not_refused (A : Type) (s s' : State) (r : A)
  (out : result A * State) :
  out = (Ok r, s') -> ~ built_none s out.
Proof. intros -> [[msg Hmsg] _]. discriminate Hmsg. Qed.

(** X15.  What a value regression does.  With a learning rate that is not
    negative, on a model with at least one critic parameter, the call
    returns the loss [loss_coeff * loss_class(values, returns)], where
    [values] is the model's answer on the observations with the weights as
    they are before the call; it constructs one optimizer over the critics'
    parameters and steps these weights once, from the gradients of that
    loss. *)
Theorem value_regression_update (model : Model)
  (observations returns : Matrix) (s : State) :
  0 <= lr (base (self s)) ->
  critic_params model <> [] ->
  let l := scale (loss_coeff (self s))
             (loss_class (self s)
                (model_output model (weight s) [observations]) returns) in
  exists s',
    ValueRegression.__call__ model observations returns s =
      (Ok {| loss := item l |}, s') /\
    updated model l s s'.
Proof. intros Hrate Hps. apply value_call_run. split; assumption. Qed.

(** X16.  What a continuous Q regression does.  As for the value
    regression, the model being asked on the observations and the actions. *)
Theorem continuous_q_regression_update (model : Model)
  (observations actions returns : Matrix) (s : State) :
  0 <= lr (base (self s)) ->
  critic_params model <> [] ->
  let l := scale (loss_coeff (self s))
             (loss_class (self s)
                (model_output model (weight s) [observations; actions])
                returns) in
  exists s',
    ContinuousQRegression.__call__ model observations actions returns s =
      (Ok {| loss := item l |}, s') /\
    updated model l s s'.
Proof. intros Hrate Hps. apply continuous_call_run. split; assumption. Qed.

(** X17.  What a discrete Q regression does to the backend.  Under the
    conditions in which the gather succeeds (Q-values of shape
    [batch, num_actions], one row of indices per sample, indices in
    [0, num_actions)), with a learning rate that is not negative, on a
    model with at least one critic parameter: one optimizer is constructed
    over the critics' parameters and steps their weights once, from the
    gradients of [loss_coeff * loss_class(gathered, returns)]. *)
Theorem discrete_q_regression_update (model : Model)
  (observations returns actions_index : Matrix) (s : State)
  (num_actions : nat) :
  let q := model_output model (weight s) [observations] in
  let index := long (to_torch actions_index) in
  0 <= lr (base (self s)) ->
  critic_params model <> [] ->
  length index = length (values q) ->
  Forall (fun row => length row = num_actions) (values q) ->
  Forall (Forall (fun k => (0 <= k < Z.of_nat num_actions)%Z)) index ->
  exists g s',
    gather_rows (values q) index = Ok g /\
    let l := scale (loss_coeff (self s))
               (loss_class (self s) (gathered_from q index g) returns) in
    DiscreteQRegression.__call__ model observations returns actions_index s =
      (Ok {| loss := item l |}, s') /\
    updated model l s s'.
Proof.
  intros q index Hrate Hps Hlen Hrows Hidx.
  destruct (@gather_rows_ok num_actions (values q) index)
    as (g & Hg & _); [lia | assumption | assumption |].
  pose proof (@discrete_call_run model observations returns actions_index s
                (conj Hrate Hps)) as H.
  cbv zeta in H. fold q index in H. rewrite Hg in H.
  destruct H as (s' & Hcall & Hup).
  exists g, s'. split; [exact Hg|]. split; assumption.
Qed.

Lemma in_calls_of_update model l s :
  In (Backward l) (calls_of_update model l s) /\
  (Qgt_bool (max_grad (base (self s))) 0 = true ->
   In (ClipGradNorm (left_to_clip model) (max_grad (base (self s))))
      (calls_of_update model l s)).
Proof.
  unfold calls_of_update. split.
  - cbn. auto.
  - intros ->. cbn. auto.
Qed.

(** A single critic's gradients after an update. *)
Lemma single_critic_updated c l s s' :
  updated (IsCritic c) l s s' ->
  In (Backward l) (calls s') /\
  (forall p, grad s' p = accumulated l (zeroed (c_parameters c) (grad s)) p) /\
  (Qgt_bool (max_grad (base (self s))) 0 = true ->
   In (ClipGradNorm [] (max_grad (base (self s)))) (calls s')).
Proof.
  intros (Hc & Hg & _).
  destruct (in_calls_of_update (IsCritic c) l s) as [Hb Hclip].
  split; [rewrite Hc; apply in_or_app; right; exact Hb|].
  split.
  - intros p. rewrite Hg. unfold grad_after_update.
    destruct (Qgt_bool _ _); reflexivity.
  - intros H. rewrite Hc. apply in_or_app. right. apply Hclip, H.
Qed.

(** X18.  A single critic is never clipped.  When the model is a single
    [Critic], the parameters handed to [clip_grad_norm_] are the generator
    the optimizer's constructor has already run through: in every call that
    returns, even with [max_grad > 0], the clipping is called on no
    parameter and every gradient is left as [backward] made it. *)
Theorem single_critic_is_never_clipped (c : Critic)
  (observations actions returns actions_index : Matrix) (s : State) :
  let unclipped s' :=
    exists l,
      In (Backward l) (calls s') /\
      (forall p,
         grad s' p = accumulated l (zeroed (c_parameters c) (grad s)) p) /\
      (Qgt_bool (max_grad (base (self s))) 0 = true ->
       In (ClipGradNorm [] (max_grad (base (self s)))) (calls s')) in
  (forall r s',
     ValueRegression.__call__ (IsCritic c) observations returns s = (Ok r, s') ->
     unclipped s') /\
  (forall r s',
     ContinuousQRegression.__call__ (IsCritic c) observations actions returns s
       = (Ok r, s') ->
     unclipped s') /\
  (forall r s',
     DiscreteQRegression.__call__ (IsCritic c) observations returns
       actions_index s = (Ok r, s') ->
     unclipped s').
Proof.
  cbv zeta.
  destruct (constructor_accepts_dec (IsCritic c) s) as [Hacc|Hn].
  - split; [|split]; intros r s' Hcall.
    + destruct (@value_call_run (IsCritic c) observations returns s Hacc)
        as (s0 & H0 & Hup).
      rewrite H0 in Hcall. inversion Hcall; subst.
      eexists. apply (single_critic_updated Hup).
    + destruct (@continuous_call_run (IsCritic c) observations actions returns
                  s Hacc) as (s0 & H0 & Hup).
      rewrite H0 in Hcall. inversion Hcall; subst.
      eexists. apply (single_critic_updated Hup).
    + pose proof (@discrete_call_run (IsCritic c) observations returns
                    actions_index s Hacc) as H.
      cbv zeta in H. destruct (gather_rows _ _) as [g|e].
      * destruct H as (s0 & H0 & Hup).
        rewrite H0 in Hcall. inversion Hcall; subst.
        eexists. apply (single_critic_updated Hup).
      * destruct H as (s0 & H0 & _). rewrite H0 in Hcall. discriminate Hcall.
  - split; [|split]; intros r s' Hcall; exfalso;
      apply (returned_not_refused (s := s) Hcall).
    + now apply value_call_refused.
    + now apply continuous_call_refused.
    + now apply discrete_call_refused.
Qed.

Lemma updated_outside model l s s' p :
  updated model l s s' ->
  mem p (critic_params model) = false -> weight s' p = weight s p.
Proof.
  intros (_ & _ & Hw) Hp. rewrite Hw. now apply step_weights_outside.
Qed.

(** X19.  An update touches the critics' weights only.  Whatever a call of
    one of the three updaters does, a parameter that is not a parameter of
    one of the model's critics (a parameter of the actor, say) keeps its
    weight. *)
Theorem update_leaves_other_weights (model : Model)
  (observations actions returns actions_index : Matrix) (s : State)
  (p : Param) :
  mem p (critic_params model) = false ->
  weight (snd (ValueRegression.__call__ model observations returns s)) p
    = weight s p /\
  weight (snd (ContinuousQRegression.__call__ model observations actions
                 returns s)) p
    = weight s p /\
  weight (snd (DiscreteQRegression.__call__ model observations returns
                 actions_index s)) p
    = weight s p.
Proof.
  intros Hp.
  destruct (constructor_accepts_dec model s) as [Hacc|Hn].
  - split; [|split].
    + destruct (@value_call_run model observations returns s Hacc)
        as (s' & -> & Hup).
      eapply updated_outside; eassumption.
    + destruct (@continuous_call_run model observations actions returns s Hacc)
        as (s' & -> & Hup).
      eapply updated_outside; eassumption.
    + pose proof (@discrete_call_run model observations returns actions_index
                    s Hacc) as H.
      cbv zeta in H. destruct (gather_rows _ _) as [g|e].
      * destruct H as (s' & -> & Hup). eapply updated_outside; eassumption.
      * destruct H as (s' & -> & Hw & _). cbn. now rewrite Hw.
  - split; [|split].
    + destruct (@value_call_refused L model observations returns s Hn)
        as (_ & _ & Hw & _). now rewrite Hw.
    + destruct (@continuous_call_refused L model observations actions returns
                  s Hn) as (_ & _ & Hw & _). now rewrite Hw.
    + destruct (@discrete_call_refused L model observations returns
                  actions_index s Hn) as (_ & _ & Hw & _). now rewrite Hw.
Qed.

Lemma gather_row_out_of_range row idx k :
  In k idx -> ~ (0 <= k < Z.of_nat (length row))%Z ->
  exists e, gather_row row idx = Raise e.
Proof.
  induction idx as [|k0 idx IH]; intros Hin Hout; [contradiction|].
  cbn [gather_row].
  destruct ((0 <=? k0)%Z && (k0 <? Z.of_nat (length row))%Z) eqn:E.
  - destruct Hin as [->|Hin].
    + apply andb_true_iff in E. destruct E as [E1 E2].
      apply Z.leb_le in E1. apply Z.ltb_lt in E2. lia.
    + destruct (IH Hin Hout) as [e ->]. eauto.
  - eauto.
Qed.

Lemma gather_rows_out_of_range input index i row idx k :
  nth_error input i = Some row -> nth_error index i = Some idx ->
  In k idx -> ~ (0 <= k < Z.of_nat (length row))%Z ->
  exists e, gather_rows input index = Raise e.
Proof.
  revert input i. induction index as [|idx0 index IH]; intros input i Hr Hi Hin Hout.
  - destruct i; discriminate.
  - destruct input as [|row0 input]; [destruct i; discriminate|].
    cbn [gather_rows]. destruct i as [|i]; cbn in Hr, Hi.
    + inversion Hr; inversion Hi; subst.
      destruct (gather_row_out_of_range row idx Hin Hout) as [e ->]. eauto.
    + destruct (gather_row row0 idx0); [|eauto].
      destruct (IH input i Hr Hi Hin Hout) as [e ->]. eauto.
Qed.

(** X20.  An action index out of range.  Let the optimizer's constructor
    accept the learning rate (not negative) and the critics' parameters (at
    least one).  When some sample's action index, once cast, is negative or
    not below the number of Q-values of the sample's row, the call raises;
    by then the optimizer has been constructed, but no weight and no
    gradient has changed and nothing was backpropagated. *)
Theorem discrete_q_regression_index_out_of_range (model : Model)
  (observations returns actions_index : Matrix) (s : State)
  (i : nat) (row : list Q) (idx : list Z) (k : Z) :
  let q := model_output model (weight s) [observations] in
  let index := long (to_torch actions_index) in
  0 <= lr (base (self s)) ->
  critic_params model <> [] ->
  nth_error (values q) i = Some row ->
  nth_error index i = Some idx ->
  In k idx ->
  ~ (0 <= k < Z.of_nat (length row))%Z ->
  exists e s',
    DiscreteQRegression.__call__ model observations returns actions_index s =
      (Raise e, s') /\
    weight s' = weight s /\ grad s' = grad s /\
    calls s' =
      calls s ++ [NewOptimizer (length (optimizers s))
                    (optimizer_class (base (self s)))
                    (critic_params model) (lr (base (self s)))].
Proof.
  intros q index Hrate Hps Hr Hi Hin Hout.
  destruct (gather_rows_out_of_range (values q) index i Hr Hi Hin Hout)
    as [e He].
  pose proof (@discrete_call_run model observations returns actions_index s
                (conj Hrate Hps)) as H.
  cbv zeta in H. fold q index in H. rewrite He in H.
  destruct H as (s' & Hcall & Hrest). exists e, s'. split; assumption.
Qed.

Lemma not_positive_no_clip (x : Q) : x <= 0 -> Qgt_bool x 0 = false.
Proof.
  intros H. unfold Qgt_bool. apply negb_false_iff. now apply Qle_bool_iff.
Qed.

Lemma filter_is_clip_updated model l s s' :
  max_grad (base (self s)) <= 0 ->
  updated model l s s' ->
  filter is_clip (calls s') = filter is_clip (calls s).
Proof.
  intros Hle (Hc & _). rewrite Hc, filter_app. unfold calls_of_update.
  rewrite (not_positive_no_clip Hle). cbn. apply app_nil_r.
Qed.

(** X21.  No clipping unless [max_grad] is positive.  With a [max_grad]
    of [0] (the default) or below, no call of an updater calls
    [clip_grad_norm_]. *)
Theorem no_clipping_unless_max_grad_positive (model : Model)
  (observations actions returns actions_index : Matrix) (s : State) :
  max_grad (base (self s)) <= 0 ->
  filter is_clip
    (calls (snd (ValueRegression.__call__ model observations returns s)))
    = filter is_clip (calls s) /\
  filter is_clip
    (calls (snd (ContinuousQRegression.__call__ model observations actions
                   returns s)))
    = filter is_clip (calls s) /\
  filter is_clip
    (calls (snd (DiscreteQRegression.__call__ model observations returns
                   actions_index s)))
    = filter is_clip (calls s).
Proof.
  intros Hle.
  destruct (constructor_accepts_dec model s) as [Hacc|Hn].
  - split; [|split].
    + destruct (@value_call_run model observations returns s Hacc)
        as (s' & -> & Hup).
      eapply filter_is_clip_updated; eassumption.
    + destruct (@continuous_call_run model observations actions returns s Hacc)
        as (s' & -> & Hup).
      eapply filter_is_clip_updated; eassumption.
    + pose proof (@discrete_call_run model observations returns actions_index
                    s Hacc) as H.
      cbv zeta in H. destruct (gather_rows _ _) as [g|e].
      * destruct H as (s' & -> & Hup).
        eapply filter_is_clip_updated; eassumption.
      * destruct H as (s' & -> & _ & _ & Hc). cbn [snd].
        rewrite Hc, filter_app. cbn. apply app_nil_r.
  - split; [|split].
    + destruct (@value_call_refused L model observations returns s Hn)
        as (_ & _ & _ & _ & _ & Hc). now rewrite Hc.
    + destruct (@continuous_call_refused L model observations actions returns
                  s Hn) as (_ & _ & _ & _ & _ & Hc). now rewrite Hc.
    + destruct (@discrete_call_refused L model observations returns
                  actions_index s Hn) as (_ & _ & _ & _ & _ & Hc).
      now rewrite Hc.
Qed.

Lemma nth_error_replace_nth_other (A : Type) (l : list A) n m x :
  m <> n -> nth_error (replace_nth n x l) m = nth_error l m.
Proof.
  revert n m. induction l as [|a l IH]; intros [|n] [|m] H; cbn;
    try reflexivity; try contradiction.
  apply IH. congruence.
Qed.

Lemma length_replace_nth (A : Type) (l : list A) n x :
  length (replace_nth n x l) = length l.
Proof.
  revert n. induction l as [|a l IH]; intros [|n]; cbn; try reflexivity.
  now rewrite IH.
Qed.

(** X22.  What [run_optimizer] leaves alone.  On a live optimizer,
    [run_optimizer] changes no weight but those of the optimizer's own
    parameters, leaves every other optimizer as it was, and keeps the
    optimizer's class, parameters and learning rate. *)
Theorem run_optimizer_frame (o : nat) (opt : Optimizer) (l : Scalar)
  (it : Iterable) (s : State) :
  nth_error (optimizers s) o = Some opt ->
  let s' := snd (BaseCriticUpdater.run_optimizer o l it s) in
  (forall p, mem p (o_params opt) = false -> weight s' p = weight s p) /\
  (forall o', o' <> o ->
     nth_error (optimizers s') o' = nth_error (optimizers s) o') /\
  length (optimizers s') = length (optimizers s) /\
  exists opt',
    nth_error (optimizers s') o = Some opt' /\
    o_class opt' = o_class opt /\ o_params opt' = o_params opt /\
    o_lr opt' = o_lr opt.
Proof.
  intros H. rewrite (@run_optimizer_run L o opt l it s H). cbv zeta.
  cbn [snd weight optimizers add_call set_optimizers set_weight].
  set (s3 := before_step o opt l it s).
  assert (Hopts : optimizers s3 = optimizers s) by apply optimizers_before_step.
  assert (Hw : weight s3 = weight s).
  { unfold s3, before_step. destruct (Qgt_bool _ _); [destruct it|]; reflexivity. }
  rewrite Hopts, Hw. split; [|split; [|split]].
  - intros p Hp. now apply step_weights_outside.
  - intros o' Ho. now apply nth_error_replace_nth_other.
  - apply length_replace_nth.
  - eexists. split; [eapply nth_error_replace_nth; exact H|].
    repeat split.
Qed.

(** X23.  A configuration the optimizer's constructor refuses.  With a
    negative learning rate, or on a model whose critics have no parameter,
    a call of any of the three updaters raises the constructor's
    [ValueError]; the updater object, every weight and every gradient are
    as they were, no optimizer has been built and no backend call has been
    made: nothing is backpropagated or stepped. *)
Theorem updater_call_refused_by_constructor (model : Model)
  (observations actions returns actions_index : Matrix) (s : State) :
  lr (base (self s)) < 0 \/ critic_params model = [] ->
  built_none s (ValueRegression.__call__ model observations returns s) /\
  built_none s
    (ContinuousQRegression.__call__ model observations actions returns s) /\
  built_none s
    (DiscreteQRegression.__call__ model observations returns actions_index s).
Proof.
  intros H.
  assert (Hn : ~ constructor_accepts model s).
  { intros [Hle Hne]. destruct H as [Hlt|He].
    - exact (Qlt_not_le _ _ Hlt Hle).
    - exact (Hne He). }
  split; [|split].
  - now apply value_call_refused.
  - now apply continuous_call_refused.
  - now apply discrete_call_refused.
Qed.

End MoreCriticProperties.

Section MoreAgentExamples.
Import Agent AgentSpec Trajectory Persistence.
#[local] Existing Instance Example2.collaborators.
#[local] Existing Instance Example3.disk.

Lemma step_env_no_steps_witness :
  step_env 5%Z (-3) (Example2.agent false true) =
    (5%Z, Example2.agent false true, []).
Proof.
  apply (@step_env_no_steps Example2.collaborators 5%Z (-3)%Z
           (Example2.agent false true)).
  lia.
Defined.

Lemma step_env_add_witness :
  step_env 0%Z (2 + 3) (Example2.agent false true) =
    let '(o1, s1, t1) := step_env 0%Z 2 (Example2.agent false true) in
    let '(o2, s2, t2) := step_env o1 3 s1 in
    (o2, s2, t1 ++ t2).
Proof.
  apply (@step_env_add Example2.collaborators 0%Z 2%Z 3%Z
           (Example2.agent false true)); lia.
Defined.

(** An on-policy run of 3 steps with a buffer of size 4. *)
Lemma fit_without_iterations_witness :
  fit Example2._fit 3 2 1 1 (Example2.agent true false) =
    Ok (set_env (snd (env_reset (env (Example2.agent true false))))
          (Example2.agent true false),
        [EnvReset]).
Proof.
  apply (@fit_without_iterations Example2.collaborators Example2._fit 3 2 1 1
           (Example2.agent true false)).
  right. split; [reflexivity|]. split; reflexivity.
Defined.

Lemma fit_on_policy_total_witness :
  exists s' t,
    fit Example2._fit 9 2 1 1 (Example2.agent true false) = Ok (s', t) /\
    Z.of_nat (Trace.count_adds t) =
      (2 + (9 / buffer_size (Example2.agent true false) - 1)
           * buffer_size (Example2.agent true false))%Z.
Proof.
  apply (@fit_on_policy_total Example2.collaborators Example2._fit 9 2 1 1
           (Example2.agent true false)).
  - intros bs ae ce s. split; reflexivity.
  - reflexivity.
  - reflexivity.
  - cbn. lia.
  - lia.
Defined.

Lemma fit_is_one_trajectory_witness :
  exists s' t,
    fit Example2._fit 4 2 1 1 (Example2.agent false true) = Ok (s', t) /\
    follows (fst (env_reset (env (Example2.agent false true))))
            (Trace.added t) /\
    count_resets t = S (count_done (Trace.added t)).
Proof.
  destruct (fit Example2._fit 4 2 1 1 (Example2.agent false true))
    as [[s' t]|e] eqn:E.
  - exists s', t. split; [reflexivity|].
    apply (@fit_is_one_trajectory Example2.collaborators Example2._fit
             4 2 1 1 (Example2.agent false true) s' t E).
  - vm_compute in E. discriminate E.
Defined.

Lemma load_existing_checkpoint_witness :
  load Example3.fs_checkpoint "weights"
       (Example2.agent false true) =
    Ok ({| env := 0%Z; model := 9%Z; action_explorer := Some tt;
           buffer := Example2.empty_buffer false 4; buffer_size := 4%Z;
           verbose := true |},
        [LoggerInfo (Text "Loading weights from weights.pt")]).
Proof.
  apply (@load_existing_checkpoint Example2.collaborators
           Example3.fs_checkpoint "weights"
           (Example2.agent false true) 9%Z 9%Z); reflexivity.
Defined.

Lemma load_forgives_only_missing_files_witness :
  load Example3.fs_other "weights"
       (Example2.agent false true) =
    Raise (RuntimeError "not a checkpoint").
Proof.
  apply (@load_forgives_only_missing_files Example2.collaborators
           Example3.fs_other "weights"
           (Example2.agent false true) (RuntimeError "not a checkpoint")).
  left. reflexivity.
Defined.

Lemma save_bare_name_raises_witness :
  save Example2.empty_fs "model" (Example2.agent false true) =
    (Raise FileNotFoundError, Example2.empty_fs,
     [LoggerInfo (Text "Saving weights to model.pt")]).
Proof.
  apply (@save_bare_name_raises Example2.collaborators Example3.disk
           Example2.empty_fs "model" (Example2.agent false true)).
  reflexivity.
Defined.

Lemma save_then_load_witness :
  let s := Example2.agent false true in
  exists fs' t,
    save Example2.empty_fs "runs/model" s = (Ok tt, fs', t) /\
    t = [LoggerInfo (Text "Saving weights to runs/model.pt")] /\
    T_load fs' "runs/model.pt" = Ok (state_dict (model s)) /\
    forall s2 m,
      load_state_dict (state_dict (model s)) (model s2) = Ok m ->
      load fs' "runs/model" s2 =
        Ok (set_model m s2,
            if verbose s2
            then [LoggerInfo (Text "Loading weights from runs/model.pt")]
            else []).
Proof.
  cbv zeta.
  destruct (save Example2.empty_fs "runs/model" (Example2.agent false true))
    as [[[[]|e] fs'] t] eqn:E.
  - exists fs', t. split; [reflexivity|].
    apply (@save_then_load Example2.collaborators Example3.disk
             Example2.empty_fs fs' "runs/model" (Example2.agent false true) t).
    + intros d p fs0 fs1 H. inversion H. now rewrite String.eqb_refl.
    + exact E.
  - vm_compute in E. discriminate E.
Defined.

End MoreAgentExamples.

Section MoreCriticExamples.
Import Critics CriticSpec UpdaterSpec.
#[local] Existing Instance Example2.torch.

Lemma value_regression_update_witness :
  let model := IsCritic (Example2.critic 0%nat 1%nat) in
  let s := Example2.world 1 in
  let l := scale (loss_coeff (self s))
             (loss_class (self s)
                (model_output model (weight s) [[[2]; [3]]]) [[1]; [1]]) in
  exists s',
    ValueRegression.__call__ model [[2]; [3]] [[1]; [1]] s =
      (Ok {| loss := item l |}, s') /\
    updated model l s s'.
Proof.
  apply (@value_regression_update Example2.torch
           (IsCritic (Example2.critic 0%nat 1%nat)) [[2]; [3]] [[1]; [1]]
           (Example2.world 1)).
  - discriminate.
  - discriminate.
Defined.

Lemma continuous_q_regression_update_witness :
  let model := IsActorCritic Example2.twin in
  let s := Example2.world 1 in
  let l := scale (loss_coeff (self s))
             (loss_class (self s)
                (model_output model (weight s) [[[2]; [3]]; [[0]; [1]]])
                [[1]; [1]]) in
  exists s',
    ContinuousQRegression.__call__ model [[2]; [3]] [[0]; [1]] [[1]; [1]] s =
      (Ok {| loss := item l |}, s') /\
    updated model l s s'.
Proof.
  apply (@continuous_q_regression_update Example2.torch
           (IsActorCritic Example2.twin) [[2]; [3]] [[0]; [1]] [[1]; [1]]
           (Example2.world 1)).
  - discriminate.
  - discriminate.
Defined.

Lemma discrete_q_regression_update_witness :
  let model := IsActorCritic Example2.twin in
  let s := Example2.world 1 in
  let q := model_output model (weight s) [[[2]; [3]]] in
  let index := long (to_torch [[0]; [1]]) in
  exists g s',
    gather_rows (values q) index = Ok g /\
    let l := scale (loss_coeff (self s))
               (loss_class (self s) (gathered_from q index g) [[1]; [1]]) in
    DiscreteQRegression.__call__ model [[2]; [3]] [[1]; [1]] [[0]; [1]] s =
      (Ok {| loss := item l |}, s') /\
    updated model l s s'.
Proof.
  apply (@discrete_q_regression_update Example2.torch
           (IsActorCritic Example2.twin) [[2]; [3]] [[1]; [1]] [[0]; [1]]
           (Example2.world 1) 2%nat).
  - discriminate.
  - discriminate.
  - reflexivity.
  - repeat constructor.
  - vm_compute. repeat (constructor; try easy).
Defined.

(** The actor's parameter [4] under an update of the twin critics. *)
Lemma update_leaves_other_weights_witness :
  let model := IsActorCritic Example2.twin in
  let s := Example2.world 1 in
  weight (snd (ValueRegression.__call__ model [[2]; [3]] [[1]; [1]] s)) 4%nat
    = weight s 4%nat /\
  weight (snd (ContinuousQRegression.__call__ model [[2]; [3]] [[0]; [1]]
                 [[1]; [1]] s)) 4%nat
    = weight s 4%nat /\
  weight (snd (DiscreteQRegression.__call__ model [[2]; [3]] [[1]; [1]]
                 [[0]; [1]] s)) 4%nat
    = weight s 4%nat.
Proof.
  apply (@update_leaves_other_weights Example2.torch
           (IsActorCritic Example2.twin) [[2]; [3]] [[0]; [1]] [[1]; [1]]
           [[0]; [1]] (Example2.world 1) 4%nat).
  reflexivity.
Defined.

(** The second sample asks for action [2] of two. *)
Lemma discrete_q_regression_index_out_of_range_witness :
  let model := IsCritic (Example2.critic 0%nat 1%nat) in
  let s := Example2.world 0 in
  exists e s',
    DiscreteQRegression.__call__ model [[2]; [3]] [[1]; [1]] [[0]; [2]] s =
      (Raise e, s') /\
    weight s' = weight s /\ grad s' = grad s /\
    calls s' =
      calls s ++ [NewOptimizer (length (optimizers s))
                    (optimizer_class (base (self s)))
                    (critic_params model) (lr (base (self s)))].
Proof.
  apply (@discrete_q_regression_index_out_of_range Example2.torch
           (IsCritic (Example2.critic 0%nat 1%nat)) [[2]; [3]] [[1]; [1]]
           [[0]; [2]] (Example2.world 0) 1%nat [1 * 3; 1 * 3] [2%Z] 2%Z).
  - discriminate.
  - discriminate.
  - reflexivity.
  - reflexivity.
  - left. reflexivity.
  - cbn. lia.
Defined.

Lemma no_clipping_unless_max_grad_positive_witness :
  let model := IsActorCritic Example2.twin in
  let s := Example3.default_world in
  filter is_clip
    (calls (snd (ValueRegression.__call__ model [[2]; [3]] [[1]; [1]] s)))
    = filter is_clip (calls s) /\
  filter is_clip
    (calls (snd (ContinuousQRegression.__call__ model [[2]; [3]] [[0]; [1]]
                   [[1]; [1]] s)))
    = filter is_clip (calls s) /\
  filter is_clip
    (calls (snd (DiscreteQRegression.__call__ model [[2]; [3]] [[1]; [1]]
                   [[0]; [1]] s)))
    = filter is_clip (calls s).
Proof.
  apply (@no_clipping_unless_max_grad_positive Example2.torch
           (IsActorCritic Example2.twin) [[2]; [3]] [[0]; [1]] [[1]; [1]]
           [[0]; [1]] Example3.default_world).
  vm_compute. discriminate.
Defined.

Lemma run_optimizer_frame_witness :
  let o := 0%nat in
  let opt := Example2.optimizer01 in
  let s := Example2.world_with_optimizer 1 in
  let s' := snd (BaseCriticUpdater.run_optimizer o Example2.loss5
                   (FromList [0%nat; 1%nat]) s) in
  (forall p, mem p (o_params opt) = false -> weight s' p = weight s p) /\
  (forall o', o' <> o ->
     nth_error (optimizers s') o' = nth_error (optimizers s) o') /\
  length (optimizers s') = length (optimizers s) /\
  exists opt',
    nth_error (optimizers s') o = Some opt' /\
    o_class opt' = o_class opt /\ o_params opt' = o_params opt /\
    o_lr opt' = o_lr opt.
Proof.
  apply (@run_optimizer_frame Example2.torch 0%nat Example2.optimizer01
           Example2.loss5 (FromList [0%nat; 1%nat])
           (Example2.world_with_optimizer 1)).
  reflexivity.
Defined.

(** An updater whose learning rate is [-1]. *)
Lemma updater_call_refused_by_constructor_witness :
  let model := IsCritic (Example2.critic 0%nat 1%nat) in
  let s := Example2.world_negative_lr in
  built_none s (ValueRegression.__call__ model [[2]; [3]] [[1]; [1]] s) /\
  built_none s
    (ContinuousQRegression.__call__ model [[2]; [3]] [[0]; [1]] [[1]; [1]] s) /\
  built_none s
    (DiscreteQRegression.__call__ model [[2]; [3]] [[1]; [1]] [[0]; [1]] s).
Proof.
  apply (@updater_call_refused_by_constructor Example2.torch
           (IsCritic (Example2.critic 0%nat 1%nat)) [[2]; [3]] [[0]; [1]]
           [[1]; [1]] [[0]; [1]] Example2.world_negative_lr).
  left. reflexivity.
Defined.

End MoreCriticExamples.
